(** * Monthly KPT report synchronisation: a shallow embedding

    The program reads a Scrapbox page holding the Keep / Problem / Try /
    Other notes of a month, parses it, locates the month's spreadsheet in
    Google Drive and overwrites four cells with the parsed sections.

    JavaScript strings are sequences of UTF-16 code units; they are
    embedded as lists of code units.  Thrown exceptions are embedded as
    the [Throw] result; the external services (UrlFetchApp, DriveApp,
    SpreadsheetApp, console) are embedded as a read-only [World] and a
    mutable [Store] threaded through a state-and-exception monad. *)

From Stdlib Require Import ZArith String Ascii DecimalString.
From stdpp Require Import gmap list.

Local Open Scope N_scope.

(** ** JavaScript strings *)

Abbreviation jsstring := (list N).

(** A literal written in the source with ASCII characters only. *)
Definition lit (s : string) : jsstring :=
  (fun a => N_of_ascii a) <$> list_ascii_of_string s.
Arguments lit : simpl never.

Module JS.

(** [String.prototype.endsWith], for a one-unit search string. *)
Definition endsWith (s : jsstring) (c : N) : bool :=
  match last s with
  | Some d => bool_decide (d = c)
  | None => false
  end.

(** [String.prototype.startsWith], for a one-unit search string. *)
Definition startsWith (s : jsstring) (c : N) : bool :=
  match s with
  | d :: _ => bool_decide (d = c)
  | [] => false
  end.

(** [String.prototype.substring(start)]. *)
Definition substring (s : jsstring) (start : nat) : jsstring := drop start s.

(** Is the search string a prefix of [s]? *)
Fixpoint isPrefix (p s : jsstring) : bool :=
  match p, s with
  | [], _ => true
  | a :: p', b :: s' => bool_decide (a = b) && isPrefix p' s'
  | _ :: _, [] => false
  end.

(** [String.prototype.split] for a non-empty separator: the input is
    scanned left to right, every occurrence of the separator found at
    the scanning position closes the current piece and the scan resumes
    after it.  [skip] counts the units of a found separator that are
    still to be passed over.  The result always has a last piece, so the
    empty string splits into one empty piece. *)
Fixpoint split_from (sep : jsstring) (skip : nat) (s : jsstring)
  : list jsstring :=
  match s with
  | [] => [[]]
  | c :: s' =>
      match skip with
      | S k => split_from sep k s'
      | O =>
          if isPrefix sep s
          then [] :: split_from sep (pred (length sep)) s'
          else match split_from sep O s' with
               | piece :: pieces => (c :: piece) :: pieces
               | [] => [[c]]
               end
      end
  end.

Definition split (s sep : jsstring) : list jsstring := split_from sep O s.

(** [Array.prototype.join] on an array of strings. *)
Fixpoint join (pieces : list jsstring) (sep : jsstring) : jsstring :=
  match pieces with
  | [] => []
  | [p] => p
  | p :: rest => p ++ sep ++ join rest sep
  end.

(** [String.prototype.toLowerCase], unit by unit.  The Latin capitals
    go to their small letters and the Kelvin sign U+212A goes to [k].
    No other code unit has a lower-case form inside ASCII.  The language
    lower-cases the other cased letters too (U+00C9 to U+00E9); the
    embedding leaves them as they are.  It is therefore exact on ASCII
    text, and exact as to whether the result is a given ASCII word, which
    is all the program observes: the lower-cased text is only compared
    with ASCII words. *)
Definition lowerUnit (c : N) : N :=
  if (65 <=? c) && (c <=? 90) then c + 32
  else if c =? 8490 then 107
  else c.

Definition toLowerCase (s : jsstring) : jsstring := lowerUnit <$> s.

(** [String.prototype.padStart(n, fill)] for a one-unit fill string. *)
Definition padStart (s : jsstring) (n : nat) (fill : N) : jsstring :=
  replicate (n - length s)%nat fill ++ s.

(** [Number.prototype.toString] on an integer: decimal digits, with a
    minus sign for a negative number. *)
Definition toString (n : Z) : jsstring :=
  lit (NilEmpty.string_of_int (Z.to_int n)).

(** The regular expression atom [.] (no [s] flag): any unit but the
    line terminators LF, CR, U+2028 and U+2029. *)
Definition isDot (c : N) : bool :=
  negb ((c =? 10) || (c =? 13) || (c =? 8232) || (c =? 8233)).

(** Units [[ and ]]. *)
Definition LBRACK : N := 91.
Definition RBRACK : N := 93.

(** The tail [(.+)\]\]] of the pattern, tried at the units after an
    opening [[[]: the group is greedy, so a longer capture is tried
    before the closing brackets are looked for after a shorter one. *)
Fixpoint matchGroup (s : jsstring) : option jsstring :=
  match s with
  | [] => None
  | c :: s' =>
      if isDot c then
        match matchGroup s' with
        | Some cap => Some (c :: cap)
        | None =>
            if isPrefix [RBRACK; RBRACK] s' then Some [c] else None
        end
      else None
  end.

(** [s.match(/\[\[(.+)\]\]/)?.[1]]: the capture of the leftmost match,
    [None] for a [null] match result. *)
Fixpoint matchKind (s : jsstring) : option jsstring :=
  match s with
  | [] => None
  | c :: s' =>
      match
        (if isPrefix [LBRACK; LBRACK] s then matchGroup (drop 1 s')
         else None)
      with
      | Some cap => Some cap
      | None => matchKind s'
      end
  end.

End JS.

(** ** Exceptions *)

(** A file of Drive. *)
Record GFile := MkFile {
  file_id : jsstring;
  file_name : jsstring;
}.

(** A folder of Drive, with its sub-folders and files in listing order. *)
#[warnings="-register-all"] Inductive GFolder := MkFolder {
  folder_name : jsstring;
  folder_folders : list GFolder;
  folder_files : list GFile;
}.

(** The object literals handed to [JSON.stringify] to build the message of
    a thrown [Error]. *)
Inductive ErrInfo :=
| FetchInfo (headers : list (jsstring * jsstring)) (contents : jsstring)
    (responseCode : Z)
    (* { headers, contents, responseCode } *)
| FolderInfo (found : bool) (pathnames : list jsstring)
    (rootFolderId : jsstring)
    (* { found: false, pathnames, rootFolderId } *)
| FileInfo (found : bool) (name : jsstring) (folder : GFolder)
    (* { found: false, name, folder } *).

Inductive Exn :=
| Error (message : jsstring)           (* new Error(message) *)
| ErrorJSON (info : ErrInfo)           (* new Error(JSON.stringify(info)) *)
| TypeError                            (* raised by the language itself *)
| HostError (service : jsstring)       (* raised by an external service *).

Inductive Result (A : Type) :=
| Ok (a : A)
| Throw (e : Exn).
Arguments Ok {A} a.
Arguments Throw {A} e.

#[global] Instance Result_ret : MRet Result := fun A a => Ok a.
#[global] Instance Result_bind : MBind Result := fun A B f r =>
  match r with
  | Ok a => f a
  | Throw e => Throw e
  end.

(** ** Utils *)

Definition SEPARATOR : N := 47.

(** The discriminant of the [switch] in [joinPath]. *)
Definition joinPath_switch (lhs rhs : jsstring) : nat :=
  ((if JS.endsWith lhs SEPARATOR then 1 else 0) +
   (if JS.startsWith rhs SEPARATOR then 2 else 0))%nat.

Definition joinPath (lhs rhs : jsstring) : Result jsstring :=
  match joinPath_switch lhs rhs with
  | 0%nat => Ok (lhs ++ [SEPARATOR] ++ rhs)
  | 1%nat | 2%nat => Ok (lhs ++ rhs)
  | 3%nat => Ok (lhs ++ JS.substring rhs 1)
  | _ => Throw (Error (lit "Unreachable"))
  end.

(** [paths.reduce(joinPath)]: a reduction without initial value, a
    [TypeError] on the empty array; the accumulator starts at the first
    element and the callback is called on the others. *)
Definition joinPaths (paths : list jsstring) : Result jsstring :=
  match paths with
  | [] => Throw TypeError
  | first :: rest =>
      fold_left (fun acc path => lhs ← acc; joinPath lhs path) rest (Ok first)
  end.

(** ** KPT contents in Scrapbox *)

Definition kptContentsKinds : list jsstring :=
  [lit "try"; lit "problem"; lit "keep"; lit "other"].

(** An object with string values: a finite map from property names. *)
Abbreviation KPTContents := (gmap jsstring jsstring).

(** [Object.fromEntries]: the entries are added one after the other, a
    later entry replacing an earlier one with the same key. *)
Definition fromEntries (entries : list (jsstring * jsstring)) : KPTContents :=
  fold_left (fun obj entry => <[entry.1 := entry.2]> obj) entries ∅.

Definition emptyKPTContents : KPTContents :=
  fromEntries ((fun kind => (kind, [])) <$> kptContentsKinds).

(** [Array.prototype.includes] on an array of strings. *)
Definition includes (xs : list jsstring) (x : jsstring) : bool :=
  existsb (fun y => bool_decide (y = x)) xs.

Definition LF : N := 10.

(** [kind$.match(/\[\[(.+)\]\]/)?.[1]?.toLowerCase()]. *)
Definition kindOfLabel (kind' : jsstring) : option jsstring :=
  JS.toLowerCase <$> JS.matchKind kind'.

(** The callback of the reduction in [parseAsKPTContents].  The
    destructuring [[kind$, ...contents]] leaves [kind$] undefined on an
    empty array, and calling [match] on it raises a [TypeError]. *)
Definition parseChunk (kpt : KPTContents) (chunk : jsstring)
  : Result KPTContents :=
  match JS.split chunk [LF] with
  | [] => Throw TypeError
  | kind' :: contents =>
      match kindOfLabel kind' with
      | None => Ok kpt
      | Some kind =>
          if bool_decide (kind = []) then Ok kpt
          else if negb (includes kptContentsKinds kind) then Ok kpt
          else Ok (<[kind := JS.join contents [LF]]> kpt)
      end
  end.

Definition parseAsKPTContents (contents : jsstring) : Result KPTContents :=
  let chunks := tail (JS.split contents [LF; LF]) in
  fold_left (fun acc chunk => kpt ← acc; parseChunk kpt chunk)
    chunks (Ok emptyKPTContents).

(** ** The external services and the state of a run *)

(** What [new Date()] gives to the program: the local year and the
    zero-based index of the local month, January being 0. *)
Record Date := MkDate {
  getFullYear : Z;
  getMonth : Z;
}.

(** The script properties the program requires. *)
Record Env := MkEnv {
  SCRAPBOX_SID : jsstring;
  SCRAPBOX_BASE_URL : jsstring;
  SCRAPBOX_PROJECT_NAME : jsstring;
  GDRIVE_ROOT_FOLDER_ID : jsstring;
}.

(** [assert(value, message)] on a string or [undefined]: the empty string
    and [undefined] are falsy. *)
Definition assert (value : option jsstring) (message : jsstring)
  : Result jsstring :=
  match value with
  | Some (c :: rest) => Ok (c :: rest)
  | _ => Throw (Error message)
  end.

(** The script properties are read and checked when the script is loaded. *)
Definition loadEnv (ENV : gmap jsstring jsstring) : Result Env :=
  sid ← assert (ENV !! lit "SCRAPBOX_SID") (lit "SCRAPBOX_SID is empty");
  baseUrl ← assert (ENV !! lit "SCRAPBOX_BASE_URL")
              (lit "SCRAPBOX_BASE_URL is empty");
  projectName ← assert (ENV !! lit "SCRAPBOX_PROJECT_NAME")
                  (lit "SCRAPBOX_PROJECT_NAME is empty");
  rootFolderId ← assert (ENV !! lit "GDRIVE_ROOT_FOLDER_ID")
                   (lit "GDRIVE_ROOT_FOLDER_ID is empty");
  mret {| SCRAPBOX_SID := sid;
          SCRAPBOX_BASE_URL := baseUrl;
          SCRAPBOX_PROJECT_NAME := projectName;
          GDRIVE_ROOT_FOLDER_ID := rootFolderId |}.

Record HTTPResponse := MkResponse {
  getResponseCode : Z;
  getHeaders : list (jsstring * jsstring);
  getContentText : jsstring;
}.

Record Spreadsheet := MkSpreadsheet {
  getId : jsstring;
  getName : jsstring;
  getUrl : jsstring;
}.

(** The services, by their interface.  A call may be refused by the
    service, which raises an exception of its own: a request may get no
    response, a folder or file identifier may be unknown, a range may be
    protected against writing. *)
Record World := MkWorld {
  fetch : jsstring -> list (jsstring * jsstring) -> option HTTPResponse;
  getFolderById : jsstring -> option GFolder;
  openById : jsstring -> option Spreadsheet;
  protected : jsstring -> jsstring -> bool;
}.

Record UpdateMonthlyReportResult := MkUpdateResult {
  succeed : bool;
  kpt : KPTContents;
  spreadsheet : Spreadsheet;
}.

(** Reading a property of an object gives [undefined] when it is absent;
    [None] stands for [undefined]. *)
Abbreviation JSValue := (option jsstring).

(** What a run does to the outside. *)
Inductive Event :=
| Fetched (url : jsstring) (headers : list (jsstring * jsstring))
| SetValue (spreadsheetId : jsstring) (a1Notation : jsstring) (value : JSValue)
| Logged (result : UpdateMonthlyReportResult).

(** The cells of the spreadsheets, by spreadsheet identifier and address,
    and the events so far, the oldest first. *)
Record Store := MkStore {
  cells : gmap (jsstring * jsstring) JSValue;
  trace : list Event;
}.

(** Computations that change the store and may throw.  A promise is
    embedded as the computation that settles it: [Ok] when it is
    fulfilled and [Throw] when it is rejected. *)
Definition M (A : Type) : Type := Store -> Result A * Store.

#[global] Instance M_ret : MRet M := fun A a st => (Ok a, st).
#[global] Instance M_bind : MBind M := fun A B f m st =>
  match m st with
  | (Ok a, st') => f a st'
  | (Throw e, st') => (Throw e, st')
  end.

Definition throw {A : Type} (e : Exn) : M A := fun st => (Throw e, st).

Definition liftResult {A : Type} (r : Result A) : M A := fun st => (r, st).

Definition emit (ev : Event) : M unit := fun st =>
  (Ok tt, {| cells := cells st; trace := trace st ++ [ev] |}).

(** Calling an async function runs its body and yields the settled
    promise without throwing. *)
Definition settle {A : Type} (m : M A) : M (Result A) := fun st =>
  let '(r, st') := m st in (Ok r, st').

(** [Promise.all] of two promises: rejected with the reason of the first
    rejected promise, fulfilled with both values otherwise. *)
Definition Promise_all {A B : Type} (p1 : Result A) (p2 : Result B)
  : Result (A * B) :=
  match p1, p2 with
  | Throw e, _ => Throw e
  | Ok _, Throw e => Throw e
  | Ok a, Ok b => Ok (a, b)
  end.

Definition await {A : Type} (p : Result A) : M A := liftResult p.

(** [UrlFetchApp.fetch(url, { headers })]. *)
Definition UrlFetchApp_fetch (w : World) (url : jsstring)
    (headers : list (jsstring * jsstring)) : M HTTPResponse :=
  _ ← emit (Fetched url headers);
  match fetch w url headers with
  | Some response => mret response
  | None => throw (HostError (lit "UrlFetchApp.fetch"))
  end.

(** [sheet.getRange(a1Notation).setValue(value)]. *)
Definition setValue (w : World) (sheet : Spreadsheet) (a1Notation : jsstring)
    (value : JSValue) : M unit := fun st =>
  if protected w (getId sheet) a1Notation
  then (Throw (HostError (lit "Range.setValue")), st)
  else
    (Ok tt,
     {| cells := <[(getId sheet, a1Notation) := value]> (cells st);
        trace := trace st ++ [SetValue (getId sheet) a1Notation value] |}).

Definition console_log (result : UpdateMonthlyReportResult) : M unit :=
  emit (Logged result).

(** ** Page fetcher *)

Definition ZERO : N := 48.

(** The characters of the page and file name prefix. *)
Definition GEPPO : jsstring := [26376; 22577; 95].

(** [year] and [month] of [getKPTContents]. *)
Definition yearOf (tod : Date) : jsstring := JS.toString (getFullYear tod).
Definition monthOf (tod : Date) : jsstring :=
  JS.padStart (JS.toString (getMonth tod)) 2 ZERO.

Definition pageTitle (tod : Date) : jsstring :=
  GEPPO ++ yearOf tod ++ monthOf tod.

Definition pageUrl (env : Env) (tod : Date) : Result jsstring :=
  joinPaths [SCRAPBOX_BASE_URL env; lit "pages"; SCRAPBOX_PROJECT_NAME env;
             pageTitle tod; lit "text"].

Definition getKPTContents (w : World) (env : Env) (tod : Date)
  : M KPTContents :=
  url ← liftResult (pageUrl env tod);
  let sid := SCRAPBOX_SID env in
  response ← UrlFetchApp_fetch w url
               [(lit "Cookie", lit "connect.sid=" ++ sid)];
  if bool_decide (getResponseCode response ≠ 200%Z) then
    let headers := getHeaders response in
    let contents := getContentText response in
    let responseCode := getResponseCode response in
    throw (ErrorJSON (FetchInfo headers contents responseCode))
  else
    kptContents ← liftResult (parseAsKPTContents (getContentText response));
    mret kptContents.

(** ** Monthly report in Google Spreadsheet *)

(** The callback of the reduction in [findFolderByPathnames]; [None] is
    [undefined].  A folder object is never falsy. *)
Definition findChild (folder : option GFolder) (pathname : jsstring)
  : option GFolder :=
  match folder with
  | None => folder
  | Some folder =>
      let folders := folder_folders folder in
      find (fun folder' => bool_decide (folder_name folder' = pathname)) folders
  end.

Definition findFolderByPathnames (w : World) (pathnames : list jsstring)
    (rootFolderId : jsstring) : Result GFolder :=
  match getFolderById w rootFolderId with
  | None => Throw (HostError (lit "DriveApp.getFolderById"))
  | Some rootFolder =>
      let found := fold_left findChild pathnames (Some rootFolder) in
      match found with
      | None => Throw (ErrorJSON (FolderInfo false pathnames rootFolderId))
      | Some found => Ok found
      end
  end.

(** [folder.getFilesByName(name)]: the files of the folder with exactly
    that name, in listing order. *)
Definition getFilesByName (folder : GFolder) (name : jsstring) : list GFile :=
  filter (fun file => file_name file = name) (folder_files folder).

Definition findSpreadsheetByName (w : World) (name : jsstring)
    (folder : GFolder) : Result Spreadsheet :=
  match head (getFilesByName folder name) with
  | None => Throw (ErrorJSON (FileInfo false name folder))
  | Some file =>
      let fileId := file_id file in
      match openById w fileId with
      | None => Throw (HostError (lit "SpreadsheetApp.openById"))
      | Some sheet => Ok sheet
      end
  end.

(** The name of the top folder of the monthly material. *)
Definition GETSUJI_SHIRYO : jsstring := [26376; 27425; 36039; 26009].

Definition reportPathnames (tod : Date) : list jsstring :=
  let year := JS.toString (getFullYear tod) in
  let month := JS.padStart (JS.toString (getMonth tod)) 2 ZERO in
  [GETSUJI_SHIRYO; year; month].

Definition monthlyReportName (tod : Date) : jsstring :=
  let year := JS.toString (getFullYear tod) in
  let month := JS.padStart (JS.toString (getMonth tod)) 2 ZERO in
  GEPPO ++ year ++ month.

Definition getMonthlyReportSpreadsheet (w : World) (env : Env) (tod : Date)
  : M Spreadsheet :=
  folder ← liftResult
             (findFolderByPathnames w (reportPathnames tod)
                (GDRIVE_ROOT_FOLDER_ID env));
  liftResult (findSpreadsheetByName w (monthlyReportName tod) folder).

Definition overwriteKPTContents (w : World) (kptContents : KPTContents)
    (monthlyReportSheet : Spreadsheet) : M UpdateMonthlyReportResult :=
  _ ← setValue w monthlyReportSheet (lit "B8") (kptContents !! lit "keep");
  _ ← setValue w monthlyReportSheet (lit "B12")
        (kptContents !! lit "problem");
  _ ← setValue w monthlyReportSheet (lit "B16") (kptContents !! lit "try");
  _ ← setValue w monthlyReportSheet (lit "B20") (kptContents !! lit "other");
  mret {| succeed := true;
          kpt := kptContents;
          spreadsheet := {| getId := getId monthlyReportSheet;
                            getName := getName monthlyReportSheet;
                            getUrl := getUrl monthlyReportSheet |} |}.

(** ** Entry point *)

(** [today] is the value of [new Date()]. *)
Definition main (w : World) (env : Env) (today : Date) : M unit :=
  p1 ← settle (getKPTContents w env today);
  p2 ← settle (getMonthlyReportSpreadsheet w env today);
  both ← await (Promise_all p1 p2);
  let '(kptContents, monthlyReportSheet) := both in
  updatedResult ← overwriteKPTContents w kptContents monthlyReportSheet;
  console_log updatedResult.

(** ** Specification vocabulary *)

(** A path string without the separator it carries at its end, if any. *)
Definition dropTrailingSeparator (s : jsstring) : jsstring :=
  if JS.endsWith s SEPARATOR then take (length s - 1)%nat s else s.

(** A path string without the separator it carries at its start, if any. *)
Definition dropLeadingSeparator (s : jsstring) : jsstring :=
  if JS.startsWith s SEPARATOR then drop 1 s else s.

(** The recognised kind that the first line of a chunk announces, as
    [parseChunk] decides it. *)
Definition chunkKind (chunk : jsstring) : option jsstring :=
  match JS.split chunk [LF] with
  | [] => None
  | kind' :: _ =>
      match kindOfLabel kind' with
      | Some kind => if includes kptContentsKinds kind then Some kind else None
      | None => None
      end
  end.

(** The lines of a chunk after the first, joined again. *)
Definition chunkBody (chunk : jsstring) : jsstring :=
  JS.join (tail (JS.split chunk [LF])) [LF].

(** The page text of the end-to-end scenario. *)
Definition scenarioText : jsstring :=
  lit "Title" ++ [LF; LF] ++
  lit "[[Keep]]" ++ [LF] ++ lit "line1" ++ [LF] ++ lit "line2" ++ [LF; LF] ++
  lit "[[Try]]" ++ [LF] ++ lit "tryline".

(** The decimal digit [d], as a code unit. *)
Definition digit (d : Z) : N := ZERO + Z.to_N d.

(** A number below 100 written with two digits, zero-padded on the left. *)
Definition twoDigits (n : Z) : jsstring :=
  [digit (n / 10); digit (n mod 10)].

(** A number from 1000 to 9999 written with its four digits. *)
Definition fourDigits (n : Z) : jsstring :=
  [digit (n / 1000); digit (n / 100 mod 10); digit (n / 10 mod 10);
   digit (n mod 10)].

(** The key of a month: the four digits of the year followed by the two
    digits of the zero-based index of the month. *)
Definition monthKey (tod : Date) : jsstring :=
  fourDigits (getFullYear tod) ++ twoDigits (getMonth tod).

(** The headers of the request of [getKPTContents]. *)
Definition cookieHeaders (env : Env) : list (jsstring * jsstring) :=
  [(lit "Cookie", lit "connect.sid=" ++ SCRAPBOX_SID env)].

(** The store after more events, the cells being as they were. *)
Definition after (st : Store) (evs : list Event) : Store :=
  {| cells := cells st; trace := trace st ++ evs |}.

(** [child] is the first sub-folder of [folder], in listing order, whose
    name is exactly [name]. *)
Inductive FirstChild (folder : GFolder) (name : jsstring) (child : GFolder)
  : Prop :=
| first_child (before behind : list GFolder) :
    folder_folders folder = before ++ child :: behind ->
    Forall (fun other => folder_name other <> name) before ->
    folder_name child = name ->
    FirstChild folder name child.

(** Following the path segments from a folder, each time into the first
    sub-folder with exactly the name of the segment, ends in a folder. *)
Inductive Descends : GFolder -> list jsstring -> GFolder -> Prop :=
| descends_done (folder : GFolder) : Descends folder [] folder
| descends_step (folder child found : GFolder) (name : jsstring)
    (names : list jsstring) :
    FirstChild folder name child ->
    Descends child names found ->
    Descends folder (name :: names) found.

(** Following the path segments from a folder reaches a folder without a
    sub-folder of exactly the name of the next segment. *)
Inductive Misses : GFolder -> list jsstring -> Prop :=
| misses_here (folder : GFolder) (name : jsstring) (names : list jsstring) :
    Forall (fun other => folder_name other <> name) (folder_folders folder) ->
    Misses folder (name :: names)
| misses_step (folder child : GFolder) (name : jsstring)
    (names : list jsstring) :
    FirstChild folder name child ->
    Misses child names ->
    Misses folder (name :: names).




(** The promise of [getKPTContents] once the request to [url] is
    answered. *)
Definition fetchOutcome (w : World) (env : Env) (url : jsstring)
  : Result KPTContents :=
  match fetch w url (cookieHeaders env) with
  | None => Throw (HostError (lit "UrlFetchApp.fetch"))
  | Some response =>
      if bool_decide (getResponseCode response ≠ 200%Z)
      then Throw (ErrorJSON (FetchInfo (getHeaders response)
                               (getContentText response)
                               (getResponseCode response)))
      else parseAsKPTContents (getContentText response)
  end.

(** The promise of [getMonthlyReportSpreadsheet]. *)
Definition sheetOutcome (w : World) (env : Env) (tod : Date)
  : Result Spreadsheet :=
  folder ← findFolderByPathnames w (reportPathnames tod)
             (GDRIVE_ROOT_FOLDER_ID env);
  findSpreadsheetByName w (monthlyReportName tod) folder.

(** The four writes of [overwriteKPTContents], in order. *)
Definition fourWrites (kptContents : KPTContents) (sheet : Spreadsheet)
  : list Event :=
  [SetValue (getId sheet) (lit "B8") (kptContents !! lit "keep");
   SetValue (getId sheet) (lit "B12") (kptContents !! lit "problem");
   SetValue (getId sheet) (lit "B16") (kptContents !! lit "try");
   SetValue (getId sheet) (lit "B20") (kptContents !! lit "other")].

(** The cells once the four writes are done. *)
Definition fourCells (kptContents : KPTContents) (sheet : Spreadsheet)
    (before : gmap (jsstring * jsstring) JSValue)
  : gmap (jsstring * jsstring) JSValue :=
  <[(getId sheet, lit "B20") := kptContents !! lit "other"]>
    (<[(getId sheet, lit "B16") := kptContents !! lit "try"]>
       (<[(getId sheet, lit "B12") := kptContents !! lit "problem"]>
          (<[(getId sheet, lit "B8") := kptContents !! lit "keep"]> before))).

(** ** Sample runs *)

Definition sampleEnv : Env :=
  {| SCRAPBOX_SID := lit "s%3Asession";
     SCRAPBOX_BASE_URL := lit "https://scrapbox.io/api/";
     SCRAPBOX_PROJECT_NAME := lit "team";
     GDRIVE_ROOT_FOLDER_ID := lit "root" |}.

(** A day of June 2024: the index of the month is 5. *)
Definition sampleDate : Date := {| getFullYear := 2024; getMonth := 5 |}.

Definition sampleUrl : jsstring :=
  lit "https://scrapbox.io/api/pages/team/" ++ GEPPO ++ lit "202405/text".

Definition sampleSheet : Spreadsheet :=
  {| getId := lit "sheet-1";
     getName := GEPPO ++ lit "202405";
     getUrl := lit "https://docs.google.com/spreadsheets/d/sheet-1" |}.

(** A root folder in which only the folder of the year exists. *)
Definition yearOnlyRoot : GFolder :=
  MkFolder (lit "root") [MkFolder (lit "2024") [] []] [].

(** A root folder with the report of June 2024 in its place. *)
Definition reportRoot : GFolder :=
  MkFolder (lit "root")
    [MkFolder (lit "archive") [] [];
     MkFolder GETSUJI_SHIRYO
       [MkFolder (lit "2024")
          [MkFolder (lit "04") [] [];
           MkFolder (lit "05") []
             [MkFile (lit "notes") (lit "memo");
              MkFile (lit "sheet-1") (GEPPO ++ lit "202405")]]
          []]
       []]
    [].

(** The page is missing: the service answers 404. *)
Definition notFoundWorld : World :=
  {| fetch := fun _ _ => Some (MkResponse 404 [] (lit "Not Found"));
     getFolderById := fun id =>
       if bool_decide (id = lit "root") then Some yearOnlyRoot else None;
     openById := fun _ => None;
     protected := fun _ _ => false |}.

(** The page and the report are both there. *)
Definition reportWorld : World :=
  {| fetch := fun _ _ => Some (MkResponse 200 [] scenarioText);
     getFolderById := fun id =>
       if bool_decide (id = lit "root") then Some reportRoot else None;
     openById := fun id =>
       if bool_decide (id = lit "sheet-1") then Some sampleSheet else None;
     protected := fun _ _ => false |}.

Definition emptyStore : Store := {| cells := ∅; trace := [] |}.

(** A page on which the Keep section comes twice. *)
Definition twiceKeepText : jsstring :=
  lit "Title" ++ [LF; LF] ++
  lit "[[Keep]]" ++ [LF] ++ lit "first" ++ [LF; LF] ++
  lit "[[Problem]]" ++ [LF] ++ lit "slow" ++ [LF; LF] ++
  lit "[[KEEP]]" ++ [LF] ++ lit "second" ++ [LF] ++ lit "third".

(** A page without any section. *)
Definition plainText : jsstring :=
  lit "Title" ++ [LF; LF] ++ lit "just a note" ++ [LF] ++ lit "[[Keep]]".

(** ** Further vocabulary *)

(** An ASCII text with its capitals turned into small letters. *)
Definition asciiLowerCase (s : jsstring) : jsstring :=
  (fun c => if (65 <=? c) && (c <=? 90) then c + 32 else c) <$> s.

(** A script property that [assert] rejects: absent or empty. *)
Definition falsy (value : option jsstring) : Prop :=
  value = None \/ value = Some [].

(** A path segment that is not empty and carries no separator at either
    end. *)
Definition cleanSegment (s : jsstring) : Prop :=
  s <> [] /\ JS.startsWith s SEPARATOR = false /\
  JS.endsWith s SEPARATOR = false.

(** Script properties with everything the program requires. *)
Definition sampleProperties : gmap jsstring jsstring :=
  {[ lit "SCRAPBOX_SID" := lit "s%3Asession";
     lit "SCRAPBOX_BASE_URL" := lit "https://scrapbox.io/api/";
     lit "SCRAPBOX_PROJECT_NAME" := lit "team";
     lit "GDRIVE_ROOT_FOLDER_ID" := lit "root";
     lit "UNRELATED" := lit "x" ]}.

(** Script properties in which the base URL is empty and the project name
    is absent. *)
Definition brokenProperties : gmap jsstring jsstring :=
  {[ lit "SCRAPBOX_SID" := lit "s%3Asession";
     lit "SCRAPBOX_BASE_URL" := [];
     lit "GDRIVE_ROOT_FOLDER_ID" := lit "root" ]}.

(** Does the text hold an empty line, that is two line breaks in a row? *)
Fixpoint hasBlankLine (s : jsstring) : bool :=
  match s with
  | [] => false
  | c :: s' => JS.isPrefix [LF; LF] (c :: s') || hasBlankLine s'
  end.





(** An iterator of the host ([FolderIterator], [FileIterator]): an object
    with a hidden cursor.  [next] moves the cursor, and raises an
    exception when the iterator is exhausted ([None]). *)
Record GIterLike (A C : Type) := MkIter {
  hasNext : C -> bool;
  next : C -> option (A * C);
}.
Arguments hasNext {A C} _ _.
Arguments next {A C} _ _.

(** [[...iterify(iter)]]: the generator is run until [hasNext] answers
    false and what it yields is collected.  [fuel] bounds the number of
    turns of the loop; [None] is a loop that has not ended within it. *)
Fixpoint spread_iterify {A C : Type} (iter : GIterLike A C) (fuel : nat)
    (cursor : C) : option (Result (list A)) :=
  match fuel with
  | O => None
  | S fuel' =>
      if hasNext iter cursor then
        match next iter cursor with
        | None => Some (Throw (HostError (lit "Iterator.next")))
        | Some (item, cursor') =>
            match spread_iterify iter fuel' cursor' with
            | Some (Ok items) => Some (Ok (item :: items))
            | other => other
            end
        end
      else Some (Ok [])
  end.

(** The iterator over a listing: the cursor is what is left of it. *)
Definition listingIterator (A : Type) : GIterLike A (list A) :=
  {| hasNext := fun cursor =>
       match cursor with [] => false | _ :: _ => true end;
     next := fun cursor =>
       match cursor with [] => None | item :: rest => Some (item, rest) end |}.

(** The addresses written by [overwriteKPTContents], in the order of the
    writes. *)
Definition reportCells : list jsstring :=
  [lit "B8"; lit "B12"; lit "B16"; lit "B20"].

(** How many of the addresses, from the first on, accept a write before
    one refuses it. *)
Fixpoint writablePrefix (w : World) (spreadsheetId : jsstring)
    (addresses : list jsstring) : nat :=
  match addresses with
  | [] => 0
  | a1Notation :: rest =>
      if protected w spreadsheetId a1Notation then 0
      else S (writablePrefix w spreadsheetId rest)
  end.

(** The record returned by [overwriteKPTContents]. *)
Definition updateResult (kptContents : KPTContents) (sheet : Spreadsheet)
  : UpdateMonthlyReportResult :=
  {| succeed := true; kpt := kptContents; spreadsheet := sheet |}.

(** A folder in which two files have the name of the report. *)
Definition twoReportsFolder : GFolder :=
  MkFolder (lit "05") []
    [MkFile (lit "notes") (lit "memo");
     MkFile (lit "sheet-1") (GEPPO ++ lit "202405");
     MkFile (lit "sheet-2") (GEPPO ++ lit "202405")].

(** A world in which the range B16 of every spreadsheet is protected. *)
Definition protectedWorld : World :=
  {| fetch := fetch reportWorld;
     getFolderById := getFolderById reportWorld;
     openById := openById reportWorld;
     protected := fun _ a1Notation => bool_decide (a1Notation = lit "B16") |}.

(** The cells after the writes among the events, done in order. *)
Definition applyWrites (before : gmap (jsstring * jsstring) JSValue)
    (events : list Event) : gmap (jsstring * jsstring) JSValue :=
  fold_left (fun cells ev =>
               match ev with
               | SetValue spreadsheetId a1Notation value =>
                   <[(spreadsheetId, a1Notation) := value]> cells
               | _ => cells
               end) events before.

(** The configuration of the sample run with the base URL written
    without the separator at its end. *)
Definition bareEnv : Env :=
  {| SCRAPBOX_SID := lit "s%3Asession";
     SCRAPBOX_BASE_URL := lit "https://scrapbox.io/api";
     SCRAPBOX_PROJECT_NAME := lit "team";
     GDRIVE_ROOT_FOLDER_ID := lit "root" |}.

(** Unfolds the operations of the monad [M]. *)
Ltac run_M :=
  unfold UrlFetchApp_fetch, console_log, setValue, emit, settle, await,
    throw, liftResult, mbind, M_bind, mret, M_ret.

(** * Properties *)

(** ** Path joiner *)

Lemma endsWith_snoc (s : jsstring) (c : N) :
  JS.endsWith s c = true -> s = take (length s - 1)%nat s ++ [c].
Proof.
  unfold JS.endsWith. destruct (last s) as [d|] eqn:Hlast; [|discriminate].
  case_bool_decide; [subst d|discriminate]. intros _.
  apply last_Some in Hlast as [front ->].
  rewrite length_app. simpl.
  replace (length front + 1 - 1)%nat with (length front) by lia.
  by rewrite take_app_length.
Qed.

Lemma startsWith_cons (s : jsstring) (c : N) :
  JS.startsWith s c = true -> s = c :: drop 1 s.
Proof.
  destruct s as [|d s]; simpl; [discriminate|].
  case_bool_decide; [by subst|discriminate].
Qed.

Lemma endsWith_app_snoc (s : jsstring) (c d : N) :
  JS.endsWith (s ++ [c]) d = bool_decide (c = d).
Proof. unfold JS.endsWith. by rewrite last_snoc. Qed.

Lemma joinPath_junction (lhs rhs : jsstring) :
  joinPath lhs rhs =
  Ok (dropTrailingSeparator lhs ++ [SEPARATOR] ++ dropLeadingSeparator rhs).
Proof.
  unfold joinPath, joinPath_switch, dropTrailingSeparator,
    dropLeadingSeparator, JS.substring.
  destruct (JS.endsWith lhs SEPARATOR) eqn:Hl,
           (JS.startsWith rhs SEPARATOR) eqn:Hr; simpl; f_equal.
  - rewrite (endsWith_snoc _ _ Hl) at 1. by rewrite <- app_assoc.
  - rewrite (endsWith_snoc _ _ Hl) at 1. by rewrite <- app_assoc.
  - by rewrite (startsWith_cons _ _ Hr) at 1.
Qed.

Lemma joinPaths_cons (first : jsstring) (rest : list jsstring) :
  exists joined, joinPaths (first :: rest) = Ok joined.
Proof.
  simpl. generalize first. induction rest as [|path rest IH]; intros acc.
  - by exists acc.
  - simpl. rewrite joinPath_junction. apply IH.
Qed.

(** C9: the discriminant of the switch in [joinPath] is one of 0, 1, 2
    and 3 for every pair of strings, so the default branch is never taken:
    [joinPath] never throws, it returns a string. *)
Theorem joinPath_total (lhs rhs : jsstring) :
  joinPath_switch lhs rhs ∈ [0; 1; 2; 3]%nat /\
  joinPath lhs rhs <> Throw (Error (lit "Unreachable")) /\
  exists joined, joinPath lhs rhs = Ok joined.
Proof.
  split; [|split].
  - unfold joinPath_switch.
    destruct (JS.endsWith lhs SEPARATOR), (JS.startsWith rhs SEPARATOR);
      simpl; set_solver.
  - by rewrite joinPath_junction.
  - rewrite joinPath_junction. eauto.
Qed.

(** C10: [joinPaths] on a one-element list returns that element as it
    is, with the separators it carries at either end. *)
Theorem joinPaths_singleton (path : jsstring) :
  joinPaths [path] = Ok path.
Proof. reflexivity. Qed.

(** C2, as stated: the fold over ["a/"; "/b"; "c/"] does not give
    "a/b/c". *)
Lemma joinPaths_abc_not_stripped :
  joinPaths [lit "a/"; lit "/b"; lit "c/"] <> Ok (lit "a/b/c").
Proof. vm_compute. discriminate. Qed.

(** C2, amended: [joinPath] returns its two arguments with exactly one
    separator at the junction, the separator that the left one carries at
    its end and the one that the right one carries at its start being
    replaced by it; the left-to-right fold over ["a/"; "/b"; "c/"] gives
    "a/b/c/", the last segment keeping its trailing separator. *)
Theorem joinPath_one_separator :
  (forall lhs rhs : jsstring,
      joinPath lhs rhs =
      Ok (dropTrailingSeparator lhs ++ [SEPARATOR] ++
          dropLeadingSeparator rhs)) /\
  joinPaths [lit "a/"; lit "/b"; lit "c/"] = Ok (lit "a/b/c/").
Proof. split; [apply joinPath_junction|reflexivity]. Qed.

(** ** KPT parser *)

Lemma split_from_nonempty (sep : jsstring) (skip : nat) (s : jsstring) :
  JS.split_from sep skip s <> [].
Proof.
  revert skip. induction s as [|c s IH]; intros skip; simpl; [done|].
  destruct skip as [|k]; [|apply IH].
  destruct (JS.isPrefix sep (c :: s)); [done|].
  by destruct (JS.split_from sep 0 s).
Qed.

Lemma includes_elem_of (xs : list jsstring) (x : jsstring) :
  includes xs x = true -> x ∈ xs.
Proof.
  unfold includes. intros Hin. apply existsb_exists in Hin as (y & Hy & Heq).
  apply bool_decide_eq_true in Heq as ->. by apply list_elem_of_In.
Qed.

Lemma chunkKind_recognized (chunk kind : jsstring) :
  chunkKind chunk = Some kind -> kind ∈ kptContentsKinds.
Proof.
  unfold chunkKind. destruct (JS.split chunk [LF]) as [|label body]; [done|].
  destruct (kindOfLabel label) as [k|]; [|done].
  destruct (includes kptContentsKinds k) eqn:Hin; [|done].
  intros [= <-]. by apply includes_elem_of.
Qed.

Lemma parseChunk_eq (kpt : KPTContents) (chunk : jsstring) :
  parseChunk kpt chunk =
  Ok (match chunkKind chunk with
      | Some kind => <[kind := chunkBody chunk]> kpt
      | None => kpt
      end).
Proof.
  unfold parseChunk, chunkKind, chunkBody, JS.split.
  destruct (JS.split_from [LF] 0 chunk) as [|label body] eqn:Hsplit.
  { by apply split_from_nonempty in Hsplit. }
  destruct (kindOfLabel label) as [kind|]; [|done].
  case_bool_decide as Hempty; [by subst kind|].
  by destruct (includes kptContentsKinds kind).
Qed.

Lemma parse_fold (chunks : list jsstring) (kpt0 : KPTContents) :
  exists kpt' : KPTContents,
    fold_left (fun acc chunk => kpt ← acc; parseChunk kpt chunk)
      chunks (Ok kpt0) = Ok kpt' /\
    forall kind,
      kpt' !! kind =
      match last (filter (fun c => chunkKind c = Some kind) chunks) with
      | Some chunk => Some (chunkBody chunk)
      | None => kpt0 !! kind
      end.
Proof.
  revert kpt0. induction chunks as [|chunk chunks IH]; intros kpt0; simpl.
  { by exists kpt0. }
  change (Ok kpt0 ≫= _) with (parseChunk kpt0 chunk).
  rewrite parseChunk_eq.
  edestruct IH as (kpt' & -> & Hlookup). exists kpt'. split; [done|].
  intros kind. rewrite Hlookup, filter_cons.
  destruct (decide (chunkKind chunk = Some kind)) as [Hk|Hk].
  - rewrite last_cons, Hk.
    destruct (last _); [done|apply lookup_insert_eq].
  - destruct (last _); [done|].
    destruct (chunkKind chunk) as [other|]; [|done].
    apply lookup_insert_ne. congruence.
Qed.

Lemma emptyKPTContents_dom :
  dom emptyKPTContents = list_to_set kptContentsKinds.
Proof.
  unfold emptyKPTContents, fromEntries. simpl.
  rewrite !dom_insert_L, dom_empty_L. set_solver.
Qed.

Lemma emptyKPTContents_lookup (kind : jsstring) :
  kind ∈ kptContentsKinds -> emptyKPTContents !! kind = Some [].
Proof.
  unfold kptContentsKinds. intros Hin.
  repeat (apply elem_of_cons in Hin as [->|Hin]; [by vm_compute|]).
  by apply elem_of_nil in Hin.
Qed.

Lemma last_filter_holds {A : Type} (P : A -> Prop) `{!forall x, Decision (P x)}
    (l : list A) (x : A) :
  last (filter P l) = Some x -> P x.
Proof.
  intros Hlast. apply last_Some_elem_of in Hlast.
  by apply list_elem_of_filter in Hlast as [? _].
Qed.

Lemma parseAsKPTContents_dom (contents : jsstring) (kpt : KPTContents) :
  parseAsKPTContents contents = Ok kpt ->
  dom kpt = list_to_set kptContentsKinds.
Proof.
  unfold parseAsKPTContents.
  destruct (parse_fold (tail (JS.split contents [LF; LF])) emptyKPTContents)
    as (kpt' & -> & Hlookup).
  intros [= <-]. apply set_eq. intros kind.
  rewrite elem_of_dom, Hlookup.
  destruct (last _) as [chunk|] eqn:Hlast.
  - apply last_filter_holds, chunkKind_recognized in Hlast.
    split; [set_solver|eauto].
  - by rewrite <- elem_of_dom, emptyKPTContents_dom.
Qed.

(** C3: the parser on the page text of the end-to-end scenario. *)
Theorem parseAsKPTContents_scenario :
  parseAsKPTContents scenarioText =
  Ok (<[lit "keep" := lit "line1" ++ [LF] ++ lit "line2"]>
        (<[lit "try" := lit "tryline"]>
           (<[lit "problem" := []]> (<[lit "other" := []]> ∅)))).
Proof. by vm_compute. Qed.

(** C5: for every input string [parseAsKPTContents] returns, without
    throwing, an object whose keys are exactly try, problem, keep and
    other; when no chunk after the title is headed by a recognised label,
    the four fields are the empty string. *)
Theorem parseAsKPTContents_total (contents : jsstring) :
  exists kpt : KPTContents,
    parseAsKPTContents contents = Ok kpt /\
    dom kpt = list_to_set kptContentsKinds /\
    (Forall (fun chunk => chunkKind chunk = None)
       (tail (JS.split contents [LF; LF])) ->
     forall kind, kind ∈ kptContentsKinds -> kpt !! kind = Some []).
Proof.
  destruct (parse_fold (tail (JS.split contents [LF; LF])) emptyKPTContents)
    as (kpt & Hparse & Hlookup).
  exists kpt. split; [done|]. split.
  - by apply (parseAsKPTContents_dom contents).
  - intros Hnone kind Hkind. rewrite Hlookup.
    destruct (last _) as [chunk|] eqn:Hlast.
    + apply last_Some_elem_of, list_elem_of_filter in Hlast as [Hk Hin].
      rewrite Forall_forall in Hnone. apply Hnone in Hin. congruence.
    + by apply emptyKPTContents_lookup.
Qed.

Lemma parseAsKPTContents_total_witness :
  Forall (fun chunk => chunkKind chunk = None)
    (tail (JS.split plainText [LF; LF])) /\
  exists kpt : KPTContents,
    parseAsKPTContents plainText = Ok kpt /\
    kpt !! lit "keep" = Some [] /\ kpt !! lit "other" = Some [].
Proof.
  assert (Forall (fun chunk => chunkKind chunk = None)
            (tail (JS.split plainText [LF; LF]))) as Hnone.
  { vm_compute. repeat constructor. }
  split; [exact Hnone|].
  destruct (parseAsKPTContents_total plainText) as (kpt & Hparse & _ & Hempty).
  exists kpt. split; [exact Hparse|].
  split; apply (Hempty Hnone); vm_compute; repeat constructor.
Defined.


(** C6: when a recognised kind heads two or more of the chunks of the
    text, the field of that kind is the body of the last of them. *)
Theorem parseAsKPTContents_last_wins (contents kind : jsstring) :
  (2 <= length (filter (fun chunk => chunkKind chunk = Some kind)
                  (JS.split contents [LF; LF])))%nat ->
  exists (chunk : jsstring) (kpt : KPTContents),
    last (filter (fun chunk => chunkKind chunk = Some kind)
            (JS.split contents [LF; LF])) = Some chunk /\
    parseAsKPTContents contents = Ok kpt /\
    kpt !! kind = Some (chunkBody chunk).
Proof.
  unfold parseAsKPTContents.
  destruct (JS.split contents [LF; LF]) as [|title chunks]; simpl.
  { intros Hlen. simpl in Hlen. lia. }
  destruct (parse_fold chunks emptyKPTContents) as (kpt & -> & Hlookup).
  intros Hlen. specialize (Hlookup kind).
  rewrite filter_cons in Hlen |- *.
  destruct (last (filter (fun c => chunkKind c = Some kind) chunks))
    as [chunk|] eqn:Hlast.
  - exists chunk, kpt. split; [|done].
    destruct (decide _); [|done]. by rewrite last_cons, Hlast.
  - apply last_None in Hlast. rewrite Hlast in Hlen.
    destruct (decide _); simpl in Hlen; lia.
Qed.

Lemma parseAsKPTContents_last_wins_witness :
  (2 <= length (filter (fun chunk => chunkKind chunk = Some (lit "keep"))
                  (JS.split twiceKeepText [LF; LF])))%nat /\
  exists kpt : KPTContents,
    parseAsKPTContents twiceKeepText = Ok kpt /\
    kpt !! lit "keep" = Some (lit "second" ++ [LF] ++ lit "third").
Proof.
  assert (2 <= length (filter (fun chunk => chunkKind chunk = Some (lit "keep"))
                         (JS.split twiceKeepText [LF; LF])))%nat as Htwice.
  { vm_compute. constructor. }
  split; [exact Htwice|].
  destruct (parseAsKPTContents_last_wins twiceKeepText (lit "keep") Htwice)
    as (chunk & kpt & Hlast & Hparse & Hkeep).
  exists kpt. split; [exact Hparse|].
  rewrite Hkeep. vm_compute in Hlast. injection Hlast as <-.
  vm_compute. reflexivity.
Defined.


(** ** Page fetcher *)

Lemma toString_fourDigits (y : Z) :
  (1000 <= y <= 9999)%Z -> JS.toString y = fourDigits y.
Proof.
  intros Hy.
  assert (forallb (fun k => bool_decide
            (JS.toString (1000 + Z.of_nat k) = fourDigits (1000 + Z.of_nat k)))
            (seq 0 (Z.to_nat 9000)) = true) as Hall by (by vm_compute).
  rewrite forallb_forall in Hall.
  specialize (Hall (Z.to_nat (y - 1000))).
  rewrite Z2Nat.id in Hall by lia.
  replace (1000 + (y - 1000))%Z with y in Hall by lia.
  eapply bool_decide_eq_true_1, Hall. apply in_seq. lia.
Qed.

Lemma padStart_twoDigits (m : Z) :
  (0 <= m <= 11)%Z -> JS.padStart (JS.toString m) 2 ZERO = twoDigits m.
Proof.
  intros Hm.
  assert (forallb (fun k => bool_decide
            (JS.padStart (JS.toString (Z.of_nat k)) 2 ZERO =
             twoDigits (Z.of_nat k)))
            (seq 0 12) = true) as Hall by (by vm_compute).
  rewrite forallb_forall in Hall.
  specialize (Hall (Z.to_nat m)). rewrite Z2Nat.id in Hall by lia.
  eapply bool_decide_eq_true_1, Hall. apply in_seq. lia.
Qed.

Lemma getKPTContents_run (w : World) (env : Env) (tod : Date) (st : Store)
    (url : jsstring) :
  pageUrl env tod = Ok url ->
  getKPTContents w env tod st =
  (fetchOutcome w env url, after st [Fetched url (cookieHeaders env)]).
Proof.
  intros Hurl. unfold getKPTContents, fetchOutcome. run_M.
  rewrite Hurl. cbn. unfold cookieHeaders, after.
  destruct (fetch w url _) as [response|]; [|done].
  case_bool_decide; [done|].
  by destruct (parseAsKPTContents _).
Qed.

(** ** Storage locator *)

Lemma find_first (name : jsstring) (folders before behind : list GFolder)
    (child : GFolder) :
  folders = before ++ child :: behind ->
  Forall (fun other => folder_name other <> name) before ->
  folder_name child = name ->
  find (fun folder' => bool_decide (folder_name folder' = name)) folders =
  Some child.
Proof.
  intros -> Hbefore Hchild.
  induction Hbefore as [|other before Hother _ IH]; simpl.
  - by rewrite bool_decide_eq_true_2.
  - by rewrite bool_decide_eq_false_2.
Qed.

Lemma find_missing (name : jsstring) (folders : list GFolder) :
  Forall (fun other => folder_name other <> name) folders ->
  find (fun folder' => bool_decide (folder_name folder' = name)) folders =
  None.
Proof.
  induction 1 as [|other folders Hother _ IH]; simpl; [done|].
  by rewrite bool_decide_eq_false_2.
Qed.

Lemma find_inv (name : jsstring) (folders : list GFolder) :
  match
    find (fun folder' => bool_decide (folder_name folder' = name)) folders
  with
  | Some child =>
      exists before behind,
        folders = before ++ child :: behind /\
        Forall (fun other => folder_name other <> name) before /\
        folder_name child = name
  | None => Forall (fun other => folder_name other <> name) folders
  end.
Proof.
  induction folders as [|other folders IH]; simpl; [done|].
  case_bool_decide as Hother.
  - by exists [], folders.
  - destruct (find _ folders) as [child|].
    + destruct IH as (before & behind & -> & Hbefore & Hchild).
      exists (other :: before), behind. by repeat constructor.
    + by constructor.
Qed.

Lemma findChild_first (folder child : GFolder) (name : jsstring) :
  FirstChild folder name child -> findChild (Some folder) name = Some child.
Proof. intros [before behind Heq Hbefore Hchild]. by eapply find_first. Qed.

Lemma fold_findChild_undefined (names : list jsstring) :
  fold_left findChild names None = None.
Proof. by induction names. Qed.

Lemma descends_fold (folder found : GFolder) (names : list jsstring) :
  Descends folder names found ->
  fold_left findChild names (Some folder) = Some found.
Proof.
  induction 1 as [|folder child found name names Hfirst _ IH]; [done|].
  cbn [fold_left]. by rewrite (findChild_first _ _ _ Hfirst).
Qed.

Lemma misses_fold (folder : GFolder) (names : list jsstring) :
  Misses folder names -> fold_left findChild names (Some folder) = None.
Proof.
  induction 1 as [folder name names Hnone
                 |folder child name names Hfirst _ IH]; cbn [fold_left].
  - unfold findChild. rewrite (find_missing _ _ Hnone).
    apply fold_findChild_undefined.
  - by rewrite (findChild_first _ _ _ Hfirst).
Qed.

Lemma descends_or_misses (names : list jsstring) (folder : GFolder) :
  (exists found, Descends folder names found) \/ Misses folder names.
Proof.
  revert folder. induction names as [|name names IH]; intros folder.
  { left. exists folder. constructor. }
  pose proof (find_inv name (folder_folders folder)) as Hfind.
  destruct (find _ _) as [child|].
  - destruct Hfind as (before & behind & Heq & Hbefore & Hchild).
    assert (FirstChild folder name child) as Hfirst by (by econstructor).
    destruct (IH child) as [[found Hfound]|Hmiss].
    + left. exists found. by econstructor.
    + right. by eapply misses_step.
  - right. by constructor.
Qed.

(** C7: with the root folder at hand, [findFolderByPathnames] returns the
    folder reached by going, segment after segment, into the first
    sub-folder whose name is exactly the segment; when a segment is
    missed it throws an error whose payload holds the whole sequence of
    segments and the identifier of the root folder.  One of the two
    happens. *)
Theorem findFolderByPathnames_descent (w : World) (pathnames : list jsstring)
    (rootFolderId : jsstring) (rootFolder : GFolder) :
  getFolderById w rootFolderId = Some rootFolder ->
  (forall found, Descends rootFolder pathnames found ->
     findFolderByPathnames w pathnames rootFolderId = Ok found) /\
  (Misses rootFolder pathnames ->
     findFolderByPathnames w pathnames rootFolderId =
     Throw (ErrorJSON (FolderInfo false pathnames rootFolderId))) /\
  ((exists found, Descends rootFolder pathnames found) \/
   Misses rootFolder pathnames).
Proof.
  intros Hroot. unfold findFolderByPathnames. rewrite Hroot.
  split; [|split].
  - intros found Hfound. by rewrite (descends_fold _ _ _ Hfound).
  - intros Hmiss. by rewrite (misses_fold _ _ Hmiss).
  - apply descends_or_misses.
Qed.

Lemma findFolderByPathnames_descent_witness :
  getFolderById notFoundWorld (lit "root") = Some yearOnlyRoot /\
  findFolderByPathnames notFoundWorld [lit "2024"; lit "05"] (lit "root") =
  Throw (ErrorJSON (FolderInfo false [lit "2024"; lit "05"] (lit "root"))).
Proof.
  split; [reflexivity|].
  apply (findFolderByPathnames_descent notFoundWorld [lit "2024"; lit "05"]
           (lit "root") yearOnlyRoot eq_refl).
  apply (misses_step _ (MkFolder (lit "2024") [] [])).
  - by apply (first_child _ _ _ [] []).
  - apply misses_here. constructor.
Defined.


(** ** Month key *)

Lemma pageTitle_key (tod : Date) :
  (1000 <= getFullYear tod <= 9999)%Z -> (0 <= getMonth tod <= 11)%Z ->
  pageTitle tod = GEPPO ++ monthKey tod.
Proof.
  intros Hy Hm. unfold pageTitle, yearOf, monthOf, monthKey.
  by rewrite toString_fourDigits, padStart_twoDigits.
Qed.

Lemma dropTrailingSeparator_snoc (s : jsstring) (c : N) :
  c <> SEPARATOR -> dropTrailingSeparator (s ++ [c]) = s ++ [c].
Proof.
  intros Hc. unfold dropTrailingSeparator.
  by rewrite endsWith_app_snoc, bool_decide_eq_false_2.
Qed.

Lemma pageUrl_key (env : Env) (tod : Date) :
  (1000 <= getFullYear tod <= 9999)%Z -> (0 <= getMonth tod <= 11)%Z ->
  exists base,
    pageUrl env tod =
    Ok (base ++ [SEPARATOR] ++ GEPPO ++ monthKey tod ++ [SEPARATOR] ++
        lit "text").
Proof.
  intros Hy Hm. unfold pageUrl, joinPaths.
  repeat (cbn [fold_left mbind Result_bind]; rewrite joinPath_junction).
  rewrite (pageTitle_key _ Hy Hm).
  match goal with
  | |- exists _, Ok (dropTrailingSeparator (?b ++ _) ++ _) = _ =>
      set (base := b); exists base
  end.
  f_equal.
  change (dropLeadingSeparator (lit "text")) with (lit "text").
  change (dropLeadingSeparator (GEPPO ++ monthKey tod))
    with (GEPPO ++ monthKey tod).
  unfold monthKey, twoDigits.
  set (units := digit (getMonth tod mod 10)).
  assert (units <> SEPARATOR) as Hunits
    by (unfold units, digit, ZERO, SEPARATOR; lia).
  replace (base ++ [SEPARATOR] ++ GEPPO ++ fourDigits (getFullYear tod) ++
           [digit (getMonth tod / 10); units])
    with ((base ++ [SEPARATOR] ++ GEPPO ++ fourDigits (getFullYear tod) ++
           [digit (getMonth tod / 10)]) ++ [units])
    by (by rewrite <- !app_assoc).
  rewrite (dropTrailingSeparator_snoc _ _ Hunits).
  rewrite <- !app_assoc. reflexivity.
Qed.

(** C4: for a date of a four-digit year, the title of the page and the
    name of the document are the prefix followed by the four digits of the
    year and the two digits of the zero-based index of the month, the
    request goes to the page of that title, and the folder path ends with
    the year and those two digits. *)
Theorem month_key_zero_based (w : World) (env : Env) (tod : Date)
    (st : Store) :
  (1000 <= getFullYear tod <= 9999)%Z -> (0 <= getMonth tod <= 11)%Z ->
  pageTitle tod = GEPPO ++ monthKey tod /\
  (exists base,
     pageUrl env tod =
     Ok (base ++ [SEPARATOR] ++ GEPPO ++ monthKey tod ++ [SEPARATOR] ++
         lit "text") /\
     trace (getKPTContents w env tod st).2 =
     trace st ++
     [Fetched (base ++ [SEPARATOR] ++ GEPPO ++ monthKey tod ++
               [SEPARATOR] ++ lit "text") (cookieHeaders env)]) /\
  monthlyReportName tod = GEPPO ++ monthKey tod /\
  reportPathnames tod =
  [GETSUJI_SHIRYO; fourDigits (getFullYear tod); twoDigits (getMonth tod)] /\
  getMonthlyReportSpreadsheet w env tod =
  (folder ← liftResult
              (findFolderByPathnames w
                 [GETSUJI_SHIRYO; fourDigits (getFullYear tod);
                  twoDigits (getMonth tod)]
                 (GDRIVE_ROOT_FOLDER_ID env));
   liftResult (findSpreadsheetByName w (GEPPO ++ monthKey tod) folder)).
Proof.
  intros Hy Hm.
  assert (monthlyReportName tod = GEPPO ++ monthKey tod) as Hname.
  { unfold monthlyReportName, monthKey.
    by rewrite toString_fourDigits, padStart_twoDigits. }
  assert (reportPathnames tod =
          [GETSUJI_SHIRYO; fourDigits (getFullYear tod);
           twoDigits (getMonth tod)]) as Hpath.
  { unfold reportPathnames.
    by rewrite toString_fourDigits, padStart_twoDigits. }
  split; [by apply pageTitle_key|]. split; [|split; [done|split; [done|]]].
  - destruct (pageUrl_key env tod Hy Hm) as [base Hurl]. exists base.
    split; [done|]. by rewrite (getKPTContents_run _ _ _ _ _ Hurl).
  - unfold getMonthlyReportSpreadsheet. by rewrite Hname, Hpath.
Qed.

Lemma month_key_zero_based_witness :
  (1000 <= getFullYear sampleDate <= 9999)%Z /\
  (0 <= getMonth sampleDate <= 11)%Z /\
  pageTitle sampleDate = GEPPO ++ lit "202405" /\
  reportPathnames sampleDate = [GETSUJI_SHIRYO; lit "2024"; lit "05"].
Proof.
  assert (1000 <= getFullYear sampleDate <= 9999)%Z as Hy by (cbn; lia).
  assert (0 <= getMonth sampleDate <= 11)%Z as Hm by (cbn; lia).
  split; [exact Hy|]. split; [exact Hm|].
  destruct (month_key_zero_based notFoundWorld sampleEnv sampleDate
              emptyStore Hy Hm) as (Htitle & _ & _ & Hpath & _).
  split; [exact Htitle|exact Hpath].
Defined.


(** C8: [getKPTContents] sends one request and succeeds exactly when the
    status of the response is 200: it then returns what the parser makes
    of the body; for a response of any other status it throws an error
    whose payload holds the headers, the body and the status. *)
Theorem getKPTContents_status (w : World) (env : Env) (tod : Date)
    (st : Store) :
  exists url,
    pageUrl env tod = Ok url /\
    (getKPTContents w env tod st).2 =
    after st [Fetched url (cookieHeaders env)] /\
    (forall response,
       fetch w url (cookieHeaders env) = Some response ->
       (getResponseCode response = 200%Z ->
        exists kptContents,
          parseAsKPTContents (getContentText response) = Ok kptContents /\
          (getKPTContents w env tod st).1 = Ok kptContents) /\
       (getResponseCode response <> 200%Z ->
        (getKPTContents w env tod st).1 =
        Throw (ErrorJSON (FetchInfo (getHeaders response)
                            (getContentText response)
                            (getResponseCode response))))) /\
    (forall kptContents,
       (getKPTContents w env tod st).1 = Ok kptContents ->
       exists response,
         fetch w url (cookieHeaders env) = Some response /\
         getResponseCode response = 200%Z).
Proof.
  destruct (joinPaths_cons (SCRAPBOX_BASE_URL env)
              [lit "pages"; SCRAPBOX_PROJECT_NAME env; pageTitle tod;
               lit "text"]) as [url Hurl].
  exists url. split; [done|].
  rewrite (getKPTContents_run _ _ _ _ _ Hurl). unfold fetchOutcome. cbn.
  split; [done|]. split.
  - intros response ->. split; intros Hcode.
    + rewrite bool_decide_eq_false_2 by (by intros ?).
      destruct (parse_fold
                  (tail (JS.split (getContentText response) [LF; LF]))
                  emptyKPTContents) as (kpt' & Hparse & _).
      exists kpt'. by split.
    + by rewrite bool_decide_eq_true_2.
  - intros kptContents.
    destruct (fetch w url _) as [response|]; [|done].
    case_bool_decide as Hcode; [done|]. intros _.
    exists response. split; [done|].
    by destruct (decide (getResponseCode response = 200%Z)).
Qed.

Lemma getKPTContents_status_witness :
  fetch notFoundWorld sampleUrl (cookieHeaders sampleEnv) =
  Some (MkResponse 404 [] (lit "Not Found")) /\
  (404 <> 200)%Z /\
  (getKPTContents notFoundWorld sampleEnv sampleDate emptyStore).1 =
  Throw (ErrorJSON (FetchInfo [] (lit "Not Found") 404)).
Proof.
  split; [reflexivity|]. split; [lia|].
  destruct (getKPTContents_status notFoundWorld sampleEnv sampleDate
              emptyStore) as (url & _ & _ & Hresponse & _).
  apply (Hresponse (MkResponse 404 [] (lit "Not Found")) eq_refl).
  cbn. lia.
Defined.

(** ** Orchestrator *)

Lemma getMonthlyReportSpreadsheet_run (w : World) (env : Env) (tod : Date)
    (st : Store) :
  getMonthlyReportSpreadsheet w env tod st = (sheetOutcome w env tod, st).
Proof.
  unfold getMonthlyReportSpreadsheet, sheetOutcome, mbind, Result_bind. run_M.
  by destruct (findFolderByPathnames _ _ _).
Qed.

Lemma main_run (w : World) (env : Env) (today : Date) (st : Store)
    (url : jsstring) :
  pageUrl env today = Ok url ->
  main w env today st =
  match Promise_all (fetchOutcome w env url) (sheetOutcome w env today) with
  | Throw e => (Throw e, after st [Fetched url (cookieHeaders env)])
  | Ok (kptContents, sheet) =>
      (updatedResult ← overwriteKPTContents w kptContents sheet;
       console_log updatedResult)
        (after st [Fetched url (cookieHeaders env)])
  end.
Proof.
  intros Hurl. unfold main, mbind at 1, M_bind at 1, settle at 1.
  rewrite (getKPTContents_run _ _ _ _ _ Hurl).
  unfold mbind at 1, M_bind at 1, settle at 1.
  rewrite getMonthlyReportSpreadsheet_run.
  unfold mbind at 1, M_bind at 1, await, liftResult.
  by destruct (fetchOutcome w env url) as [kptContents|e],
       (sheetOutcome w env today) as [sheet|e'].
Qed.



(** A run that completes: the four cells of the report of the month hold
    the four sections of the page. *)
Example main_completes :
  main reportWorld sampleEnv sampleDate emptyStore =
  (Ok tt,
   {| cells :=
        {[ (lit "sheet-1", lit "B8") := Some (lit "line1" ++ [LF] ++ lit "line2");
           (lit "sheet-1", lit "B12") := Some [];
           (lit "sheet-1", lit "B16") := Some (lit "tryline");
           (lit "sheet-1", lit "B20") := Some [] ]};
      trace :=
        [Fetched sampleUrl (cookieHeaders sampleEnv);
         SetValue (lit "sheet-1") (lit "B8")
           (Some (lit "line1" ++ [LF] ++ lit "line2"));
         SetValue (lit "sheet-1") (lit "B12") (Some []);
         SetValue (lit "sheet-1") (lit "B16") (Some (lit "tryline"));
         SetValue (lit "sheet-1") (lit "B20") (Some []);
         Logged {| succeed := true;
                   kpt := {[ lit "keep" := lit "line1" ++ [LF] ++ lit "line2";
                             lit "try" := lit "tryline";
                             lit "problem" := [];
                             lit "other" := [] ]};
                   spreadsheet := sampleSheet |}] |}).
Proof. by vm_compute. Qed.

(** * Further properties *)

(** ** Script properties *)

Lemma assert_Ok (value : option jsstring) (message v : jsstring) :
  assert value message = Ok v <-> value = Some v /\ v <> [].
Proof.
  unfold assert. destruct value as [[|c rest]|]; split.
  - done.
  - by intros [[= <-] ?].
  - by intros [= <-].
  - by intros [[= <-] _].
  - done.
  - by intros [? _].
Qed.

Lemma assert_Throw (value : option jsstring) (message : jsstring) :
  falsy value -> assert value message = Throw (Error message).
Proof. by intros [-> | ->]. Qed.

Lemma assert_truthy (value : option jsstring) (message : jsstring) :
  ~ falsy value -> exists v, assert value message = Ok v.
Proof.
  unfold falsy, assert. destruct value as [[|c rest]|]; intros Hnot.
  - destruct Hnot. by right.
  - eauto.
  - destruct Hnot. by left.
Qed.

(** X1: the script properties load exactly when the four required ones
    are present and not empty, and the loaded configuration holds their
    values. *)
Theorem loadEnv_Ok (ENV : gmap jsstring jsstring) (env : Env) :
  loadEnv ENV = Ok env <->
  (ENV !! lit "SCRAPBOX_SID" = Some (SCRAPBOX_SID env) /\
   SCRAPBOX_SID env <> []) /\
  (ENV !! lit "SCRAPBOX_BASE_URL" = Some (SCRAPBOX_BASE_URL env) /\
   SCRAPBOX_BASE_URL env <> []) /\
  (ENV !! lit "SCRAPBOX_PROJECT_NAME" = Some (SCRAPBOX_PROJECT_NAME env) /\
   SCRAPBOX_PROJECT_NAME env <> []) /\
  (ENV !! lit "GDRIVE_ROOT_FOLDER_ID" = Some (GDRIVE_ROOT_FOLDER_ID env) /\
   GDRIVE_ROOT_FOLDER_ID env <> []).
Proof.
  unfold loadEnv.
  rewrite <- (assert_Ok _ (lit "SCRAPBOX_SID is empty")),
    <- (assert_Ok _ (lit "SCRAPBOX_BASE_URL is empty")),
    <- (assert_Ok _ (lit "SCRAPBOX_PROJECT_NAME is empty")),
    <- (assert_Ok _ (lit "GDRIVE_ROOT_FOLDER_ID is empty")).
  destruct env as [sid baseUrl projectName rootFolderId]. cbn.
  split.
  - destruct (assert (ENV !! lit "SCRAPBOX_SID") _) as [sid'|]; [|done].
    destruct (assert (ENV !! lit "SCRAPBOX_BASE_URL") _) as [baseUrl'|];
      [|done].
    destruct (assert (ENV !! lit "SCRAPBOX_PROJECT_NAME") _)
      as [projectName'|]; [|done].
    destruct (assert (ENV !! lit "GDRIVE_ROOT_FOLDER_ID") _)
      as [rootFolderId'|]; [|done].
    cbn. by intros [= -> -> -> ->].
  - by intros (-> & -> & -> & ->).
Qed.

Lemma loadEnv_Ok_witness :
  ((sampleProperties !! lit "SCRAPBOX_SID" = Some (SCRAPBOX_SID sampleEnv) /\
    SCRAPBOX_SID sampleEnv <> []) /\
   (sampleProperties !! lit "SCRAPBOX_BASE_URL" =
    Some (SCRAPBOX_BASE_URL sampleEnv) /\
    SCRAPBOX_BASE_URL sampleEnv <> []) /\
   (sampleProperties !! lit "SCRAPBOX_PROJECT_NAME" =
    Some (SCRAPBOX_PROJECT_NAME sampleEnv) /\
    SCRAPBOX_PROJECT_NAME sampleEnv <> []) /\
   (sampleProperties !! lit "GDRIVE_ROOT_FOLDER_ID" =
    Some (GDRIVE_ROOT_FOLDER_ID sampleEnv) /\
    GDRIVE_ROOT_FOLDER_ID sampleEnv <> [])) /\
  loadEnv sampleProperties = Ok sampleEnv.
Proof.
  refine ((fun H => conj H (proj2 (loadEnv_Ok sampleProperties sampleEnv) H))
            _).
  repeat split; by vm_compute.
Defined.


(** X2: when a required script property is absent or empty, loading
    throws the error that names the first such property, in the order
    SCRAPBOX_SID, SCRAPBOX_BASE_URL, SCRAPBOX_PROJECT_NAME,
    GDRIVE_ROOT_FOLDER_ID. *)
Theorem loadEnv_first_missing (ENV : gmap jsstring jsstring) :
  (falsy (ENV !! lit "SCRAPBOX_SID") ->
   loadEnv ENV = Throw (Error (lit "SCRAPBOX_SID is empty"))) /\
  (~ falsy (ENV !! lit "SCRAPBOX_SID") ->
   falsy (ENV !! lit "SCRAPBOX_BASE_URL") ->
   loadEnv ENV = Throw (Error (lit "SCRAPBOX_BASE_URL is empty"))) /\
  (~ falsy (ENV !! lit "SCRAPBOX_SID") ->
   ~ falsy (ENV !! lit "SCRAPBOX_BASE_URL") ->
   falsy (ENV !! lit "SCRAPBOX_PROJECT_NAME") ->
   loadEnv ENV = Throw (Error (lit "SCRAPBOX_PROJECT_NAME is empty"))) /\
  (~ falsy (ENV !! lit "SCRAPBOX_SID") ->
   ~ falsy (ENV !! lit "SCRAPBOX_BASE_URL") ->
   ~ falsy (ENV !! lit "SCRAPBOX_PROJECT_NAME") ->
   falsy (ENV !! lit "GDRIVE_ROOT_FOLDER_ID") ->
   loadEnv ENV = Throw (Error (lit "GDRIVE_ROOT_FOLDER_ID is empty"))).
Proof.
  unfold loadEnv. repeat split.
  - intros H1. by rewrite (assert_Throw _ _ H1).
  - intros H1 H2.
    destruct (assert_truthy _ (lit "SCRAPBOX_SID is empty") H1) as [? ->].
    cbn. by rewrite (assert_Throw _ _ H2).
  - intros H1 H2 H3.
    destruct (assert_truthy _ (lit "SCRAPBOX_SID is empty") H1) as [? ->].
    destruct (assert_truthy _ (lit "SCRAPBOX_BASE_URL is empty") H2)
      as [? ->].
    cbn. by rewrite (assert_Throw _ _ H3).
  - intros H1 H2 H3 H4.
    destruct (assert_truthy _ (lit "SCRAPBOX_SID is empty") H1) as [? ->].
    destruct (assert_truthy _ (lit "SCRAPBOX_BASE_URL is empty") H2)
      as [? ->].
    destruct (assert_truthy _ (lit "SCRAPBOX_PROJECT_NAME is empty") H3)
      as [? ->].
    cbn. by rewrite (assert_Throw _ _ H4).
Qed.

Lemma loadEnv_first_missing_witness :
  ~ falsy (brokenProperties !! lit "SCRAPBOX_SID") /\
  falsy (brokenProperties !! lit "SCRAPBOX_BASE_URL") /\
  loadEnv brokenProperties = Throw (Error (lit "SCRAPBOX_BASE_URL is empty")).
Proof.
  assert (~ falsy (brokenProperties !! lit "SCRAPBOX_SID")) as Hsid.
  { vm_compute. by intros [Hnone|Hempty]. }
  assert (falsy (brokenProperties !! lit "SCRAPBOX_BASE_URL")) as Hbase.
  { right. by vm_compute. }
  split; [exact Hsid|]. split; [exact Hbase|].
  exact (proj1 (proj2 (loadEnv_first_missing brokenProperties)) Hsid Hbase).
Defined.


(** ** Path joiner, continued *)

Lemma startsWith_cons_eq (s : jsstring) (c : N) :
  JS.startsWith (c :: s) c = true.
Proof. simpl. by rewrite bool_decide_eq_true_2. Qed.

Lemma endsWith_app (s t : jsstring) (c : N) :
  t <> [] -> JS.endsWith (s ++ t) c = JS.endsWith t c.
Proof.
  intros Ht. unfold JS.endsWith. rewrite last_app.
  destruct (last t) eqn:Hlast; [done|]. by apply last_None in Hlast.
Qed.

Lemma dropTrailingSeparator_clean (s : jsstring) :
  JS.endsWith s SEPARATOR = false -> dropTrailingSeparator s = s.
Proof. unfold dropTrailingSeparator. by intros ->. Qed.

Lemma dropLeadingSeparator_clean (s : jsstring) :
  JS.startsWith s SEPARATOR = false -> dropLeadingSeparator s = s.
Proof. unfold dropLeadingSeparator. by intros ->. Qed.

Lemma dropTrailingSeparator_sep (s : jsstring) :
  dropTrailingSeparator (s ++ [SEPARATOR]) = s.
Proof.
  unfold dropTrailingSeparator.
  rewrite endsWith_app_snoc, bool_decide_eq_true_2 by done.
  rewrite length_app. simpl.
  replace (length s + 1 - 1)%nat with (length s) by lia.
  by rewrite take_app_length.
Qed.

Lemma dropLeadingSeparator_sep (s : jsstring) :
  dropLeadingSeparator (SEPARATOR :: s) = s.
Proof. unfold dropLeadingSeparator. by rewrite startsWith_cons_eq. Qed.

(** X3: a separator written at the end of the left string, at the start
    of the right string, at both places or at neither gives the same
    joined path. *)
Theorem joinPath_spellings (lhs rhs : jsstring) :
  JS.endsWith lhs SEPARATOR = false ->
  JS.startsWith rhs SEPARATOR = false ->
  joinPath lhs rhs = Ok (lhs ++ [SEPARATOR] ++ rhs) /\
  joinPath (lhs ++ [SEPARATOR]) rhs = Ok (lhs ++ [SEPARATOR] ++ rhs) /\
  joinPath lhs (SEPARATOR :: rhs) = Ok (lhs ++ [SEPARATOR] ++ rhs) /\
  joinPath (lhs ++ [SEPARATOR]) (SEPARATOR :: rhs) =
  Ok (lhs ++ [SEPARATOR] ++ rhs).
Proof.
  intros Hl Hr. rewrite !joinPath_junction.
  rewrite !dropTrailingSeparator_sep, !dropLeadingSeparator_sep.
  by rewrite (dropTrailingSeparator_clean _ Hl),
    (dropLeadingSeparator_clean _ Hr).
Qed.

Lemma joinPath_spellings_witness :
  JS.endsWith (lit "api") SEPARATOR = false /\
  JS.startsWith (lit "pages") SEPARATOR = false /\
  joinPath (lit "api/") (lit "/pages") = Ok (lit "api/pages") /\
  joinPath (lit "api") (lit "pages") = Ok (lit "api/pages").
Proof.
  split; [reflexivity|]. split; [reflexivity|].
  destruct (joinPath_spellings (lit "api") (lit "pages") eq_refl eq_refl)
    as (Hnone & _ & _ & Hboth).
  split; [exact Hboth|exact Hnone].
Defined.

Lemma join_cons (piece : jsstring) (pieces : list jsstring) (sep : jsstring) :
  JS.join (piece :: pieces) sep =
  piece ++ concat ((fun p => sep ++ p) <$> pieces).
Proof.
  revert piece. induction pieces as [|next pieces IH]; intros piece.
  - simpl. by rewrite app_nil_r.
  - change (JS.join (piece :: next :: pieces) sep)
      with (piece ++ sep ++ JS.join (next :: pieces) sep).
    rewrite IH. simpl. by rewrite <- app_assoc.
Qed.

Lemma joinPaths_fold_clean (rest : list jsstring) (acc : jsstring) :
  JS.endsWith acc SEPARATOR = false ->
  Forall cleanSegment rest ->
  fold_left (fun acc path => lhs ← acc; joinPath lhs path) rest (Ok acc) =
  Ok (acc ++ concat ((fun p => [SEPARATOR] ++ p) <$> rest)).
Proof.
  intros Hacc Hrest. revert acc Hacc.
  induction Hrest as [|path rest (Hne & Hstart & Hend) _ IH]; intros acc Hacc.
  - simpl. by rewrite app_nil_r.
  - cbn [fold_left mbind Result_bind]. rewrite joinPath_junction.
    rewrite (dropTrailingSeparator_clean _ Hacc),
      (dropLeadingSeparator_clean _ Hstart).
    rewrite IH.
    + cbn [fmap list_fmap concat]. by rewrite <- !app_assoc.
    + rewrite endsWith_app; [|by destruct path].
      change ([SEPARATOR] ++ path) with (SEPARATOR :: path).
      by rewrite (endsWith_app [SEPARATOR] path).
Qed.

(** X4: on segments that are not empty and carry no separator at either
    end, [joinPaths] is the join of the segments with the separator. *)
Theorem joinPaths_clean (first : jsstring) (rest : list jsstring) :
  JS.endsWith first SEPARATOR = false ->
  Forall cleanSegment rest ->
  joinPaths (first :: rest) = Ok (JS.join (first :: rest) [SEPARATOR]).
Proof.
  intros Hfirst Hrest. unfold joinPaths.
  by rewrite (joinPaths_fold_clean _ _ Hfirst Hrest), join_cons.
Qed.

Lemma joinPaths_clean_witness :
  JS.endsWith (lit "https://scrapbox.io/api") SEPARATOR = false /\
  Forall cleanSegment [lit "pages"; lit "team"; lit "text"] /\
  joinPaths [lit "https://scrapbox.io/api"; lit "pages"; lit "team";
             lit "text"] =
  Ok (lit "https://scrapbox.io/api/pages/team/text").
Proof.
  assert (Forall cleanSegment [lit "pages"; lit "team"; lit "text"]) as Hclean.
  { repeat constructor; by vm_compute. }
  split; [reflexivity|]. split; [exact Hclean|].
  exact (joinPaths_clean (lit "https://scrapbox.io/api")
           [lit "pages"; lit "team"; lit "text"] eq_refl Hclean).
Defined.

(** X5: [joinPaths] returns a path exactly when the list is not empty;
    on the empty list the reduction throws a [TypeError]. *)
Theorem joinPaths_Ok_iff (paths : list jsstring) :
  ((exists joined, joinPaths paths = Ok joined) <-> paths <> []) /\
  (paths = [] <-> joinPaths paths = Throw TypeError).
Proof.
  destruct paths as [|first rest].
  - split; split; try done. by intros [joined Hjoined].
  - destruct (joinPaths_cons first rest) as [joined Hjoined].
    rewrite Hjoined. split; split; try done. eauto.
Qed.

Lemma joinPaths_Ok_iff_witness :
  [lit "a"; lit "b"] <> [] /\
  exists joined, joinPaths [lit "a"; lit "b"] = Ok joined.
Proof.
  assert ([lit "a"; lit "b"] <> []) as Hne by discriminate.
  split; [exact Hne|].
  exact (proj2 (proj1 (joinPaths_Ok_iff [lit "a"; lit "b"])) Hne).
Defined.

(** ** KPT parser, continued *)

Lemma isPrefix_app (p s : jsstring) : JS.isPrefix p (p ++ s) = true.
Proof.
  induction p as [|a p IH]; simpl; [done|].
  by rewrite bool_decide_eq_true_2.
Qed.

Lemma isPrefix_inv (p s : jsstring) :
  JS.isPrefix p s = true -> exists rest, s = p ++ rest.
Proof.
  revert s. induction p as [|a p IH]; intros s; simpl.
  - by exists s.
  - destruct s as [|b s]; [done|].
    case_bool_decide as Hab; [subst b|done]. simpl.
    intros Hp. destruct (IH _ Hp) as [rest ->]. by exists rest.
Qed.

Lemma join_split_from (sep : jsstring) (skip : nat) (s : jsstring) :
  sep <> [] -> JS.join (JS.split_from sep skip s) sep = drop skip s.
Proof.
  intros Hsep. revert skip. induction s as [|c s IH]; intros skip.
  { by destruct skip. }
  destruct skip as [|k]; [|apply IH].
  cbn [JS.split_from drop].
  destruct (JS.isPrefix sep (c :: s)) eqn:Hprefix.
  - pose proof (IH (pred (length sep))) as Hrest.
    destruct (JS.split_from sep (pred (length sep)) s) as [|piece pieces] eqn:Hsplit.
    { by apply split_from_nonempty in Hsplit. }
    change (JS.join ([] :: piece :: pieces) sep)
      with ([] ++ sep ++ JS.join (piece :: pieces) sep).
    rewrite Hrest. apply isPrefix_inv in Hprefix as [rest Hrest'].
    destruct sep as [|a sep]; [done|].
    injection Hrest' as -> ->. cbn [length pred app].
    by rewrite drop_app_length.
  - pose proof (IH 0%nat) as Hrest. rewrite drop_0 in Hrest.
    destruct (JS.split_from sep 0 s) as [|piece pieces] eqn:Hsplit.
    { by apply split_from_nonempty in Hsplit. }
    rewrite <- Hrest. by destruct pieces.
Qed.

Lemma split_line (label rest : jsstring) :
  LF ∉ label ->
  JS.split (label ++ [LF] ++ rest) [LF] = label :: JS.split rest [LF].
Proof.
  intros Hlabel. unfold JS.split.
  induction label as [|c label IH]; [done|].
  apply not_elem_of_cons in Hlabel as [Hc Hlabel].
  cbn [app JS.split_from JS.isPrefix].
  rewrite bool_decide_eq_false_2 by done. simpl.
  change (JS.split_from [LF] 0 (label ++ LF :: rest))
    with (JS.split_from [LF] 0 (label ++ [LF] ++ rest)).
  by rewrite (IH Hlabel).
Qed.

Lemma split_single_line (label : jsstring) :
  LF ∉ label -> JS.split label [LF] = [label].
Proof.
  intros Hlabel. unfold JS.split.
  induction label as [|c label IH]; [done|].
  apply not_elem_of_cons in Hlabel as [Hc Hlabel].
  cbn [JS.split_from JS.isPrefix].
  rewrite bool_decide_eq_false_2 by done. simpl.
  by rewrite (IH Hlabel).
Qed.

Lemma chunkBody_line (label body : jsstring) :
  LF ∉ label -> chunkBody (label ++ [LF] ++ body) = body.
Proof.
  intros Hlabel. unfold chunkBody. rewrite (split_line _ _ Hlabel).
  cbn [tail]. unfold JS.split. rewrite join_split_from by done.
  apply drop_0.
Qed.

Lemma includes_true (xs : list jsstring) (x : jsstring) :
  x ∈ xs -> includes xs x = true.
Proof.
  intros Hin. apply existsb_exists. exists x.
  split; [by apply list_elem_of_In|by apply bool_decide_eq_true_2].
Qed.

(** X6: a chunk whose first line announces a recognised kind is stored
    under that kind with the text after the first line break as it is;
    a chunk of that line alone is stored as the empty string. *)
Theorem parseChunk_body (kpt : KPTContents) (label body kind : jsstring) :
  LF ∉ label ->
  kindOfLabel label = Some kind ->
  kind ∈ kptContentsKinds ->
  parseChunk kpt (label ++ [LF] ++ body) = Ok (<[kind := body]> kpt) /\
  parseChunk kpt label = Ok (<[kind := []]> kpt).
Proof.
  intros Hlabel Hkind Hin.
  pose proof (includes_true _ _ Hin) as Hincl.
  rewrite !parseChunk_eq. unfold chunkKind.
  rewrite (split_line _ _ Hlabel), (split_single_line _ Hlabel).
  rewrite Hkind, Hincl, (chunkBody_line _ _ Hlabel).
  unfold chunkBody. by rewrite (split_single_line _ Hlabel).
Qed.

Lemma parseChunk_body_witness :
  (LF ∉ lit "## [[Problem]]") /\
  kindOfLabel (lit "## [[Problem]]") = Some (lit "problem") /\
  lit "problem" ∈ kptContentsKinds /\
  parseChunk emptyKPTContents
    (lit "## [[Problem]]" ++ [LF] ++ lit "slow builds" ++ [LF; LF; LF]) =
  Ok (<[lit "problem" := lit "slow builds" ++ [LF; LF; LF]]> emptyKPTContents).
Proof.
  assert (LF ∉ lit "## [[Problem]]") as Hlabel.
  { intros Hin. vm_compute in Hin.
    repeat (apply elem_of_cons in Hin as [Hin|Hin]; [discriminate|]).
    by apply elem_of_nil in Hin. }
  assert (lit "problem" ∈ kptContentsKinds) as Hin.
  { unfold kptContentsKinds. apply elem_of_cons. right.
    apply elem_of_cons. by left. }
  split; [exact Hlabel|]. split; [reflexivity|]. split; [exact Hin|].
  exact (proj1 (parseChunk_body emptyKPTContents (lit "## [[Problem]]")
                  (lit "slow builds" ++ [LF; LF; LF]) (lit "problem")
                  Hlabel eq_refl Hin)).
Defined.

Lemma matchGroup_no_bracket (s : jsstring) :
  JS.RBRACK ∉ s -> JS.matchGroup s = None.
Proof.
  induction s as [|c s IH]; [done|].
  intros Hs. apply not_elem_of_cons in Hs as [Hc Hs].
  cbn [JS.matchGroup]. rewrite (IH Hs).
  destruct (JS.isDot c); [|done].
  destruct s as [|d s]; [done|].
  apply not_elem_of_cons in Hs as [Hd _].
  cbn [JS.isPrefix]. by rewrite bool_decide_eq_false_2.
Qed.

Lemma matchGroup_closing (post : jsstring) :
  JS.RBRACK ∉ post -> JS.matchGroup ([JS.RBRACK; JS.RBRACK] ++ post) = None.
Proof.
  intros Hpost. cbn [app JS.matchGroup].
  rewrite (matchGroup_no_bracket _ Hpost).
  assert (JS.isPrefix [JS.RBRACK; JS.RBRACK] post = false) as ->.
  { destruct post as [|d post]; [done|].
    apply not_elem_of_cons in Hpost as [Hd _].
    cbn [JS.isPrefix]. by rewrite bool_decide_eq_false_2. }
  assert (JS.isPrefix [JS.RBRACK; JS.RBRACK] (JS.RBRACK :: post) = false) as ->.
  { cbn [JS.isPrefix]. rewrite bool_decide_eq_true_2 by done.
    destruct post as [|d post]; [done|].
    apply not_elem_of_cons in Hpost as [Hd _].
    cbn [JS.isPrefix]. by rewrite bool_decide_eq_false_2. }
  by destruct (JS.isDot JS.RBRACK).
Qed.

Lemma matchGroup_capture (written post : jsstring) :
  written <> [] ->
  Forall (fun c => JS.isDot c = true) written ->
  JS.RBRACK ∉ post ->
  JS.matchGroup (written ++ [JS.RBRACK; JS.RBRACK] ++ post) = Some written.
Proof.
  intros Hne Hdots Hpost.
  induction Hdots as [|c written Hc Hdots IH]; [done|].
  rewrite <- app_comm_cons. cbn [JS.matchGroup]. rewrite Hc.
  destruct written as [|d written].
  - cbn [app]. change (JS.RBRACK :: JS.RBRACK :: post)
      with ([JS.RBRACK; JS.RBRACK] ++ post).
    rewrite (matchGroup_closing _ Hpost). by rewrite isPrefix_app.
  - by rewrite IH.
Qed.

Lemma matchKind_skip (pre s : jsstring) :
  JS.LBRACK ∉ pre -> JS.matchKind (pre ++ s) = JS.matchKind s.
Proof.
  induction pre as [|c pre IH]; [done|].
  intros Hpre. apply not_elem_of_cons in Hpre as [Hc Hpre].
  cbn [app JS.matchKind JS.isPrefix].
  rewrite bool_decide_eq_false_2 by done. apply (IH Hpre).
Qed.

Lemma kindOfLabel_written (pre written post : jsstring) :
  JS.LBRACK ∉ pre ->
  written <> [] ->
  Forall (fun c => JS.isDot c = true) written ->
  JS.RBRACK ∉ post ->
  kindOfLabel (pre ++ lit "[[" ++ written ++ lit "]]" ++ post) =
  Some (JS.toLowerCase written).
Proof.
  intros Hpre Hne Hdots Hpost. unfold kindOfLabel.
  rewrite (matchKind_skip _ _ Hpre).
  change (lit "[[" ++ written ++ lit "]]" ++ post)
    with (JS.LBRACK :: JS.LBRACK ::
          written ++ [JS.RBRACK; JS.RBRACK] ++ post).
  cbn [JS.matchKind JS.isPrefix drop].
  rewrite !bool_decide_eq_true_2 by done. cbn [andb].
  by rewrite drop_0, (matchGroup_capture _ _ Hne Hdots Hpost).
Qed.

Lemma toLowerCase_ascii (s : jsstring) :
  Forall (fun c => c < 128) s -> JS.toLowerCase s = asciiLowerCase s.
Proof.
  unfold JS.toLowerCase, asciiLowerCase.
  induction 1 as [|c s Hc _ IH]; [done|].
  rewrite !fmap_cons, IH. f_equal. unfold JS.lowerUnit.
  destruct ((65 <=? c) && (c <=? 90)); [done|].
  destruct (N.eqb_spec c 8490); [lia|done].
Qed.

(** X7: on a line with a kind written in ASCII characters in double
    brackets, whatever stands before the brackets without an opening
    bracket and after them without a closing bracket, the kind is read
    with its capitals turned into small letters: the letter case of the
    label does not matter. *)
Theorem kindOfLabel_bracketed (pre written post : jsstring) :
  JS.LBRACK ∉ pre ->
  written <> [] ->
  Forall (fun c => JS.isDot c = true) written ->
  Forall (fun c => c < 128) written ->
  JS.RBRACK ∉ post ->
  kindOfLabel (pre ++ lit "[[" ++ written ++ lit "]]" ++ post) =
  Some (asciiLowerCase written).
Proof.
  intros Hpre Hne Hdots Hascii Hpost.
  rewrite <- (toLowerCase_ascii _ Hascii).
  by apply kindOfLabel_written.
Qed.

Lemma kindOfLabel_bracketed_witness :
  (JS.LBRACK ∉ lit "* ") /\
  lit "KeEp" <> [] /\
  Forall (fun c => JS.isDot c = true) (lit "KeEp") /\
  Forall (fun c => c < 128) (lit "KeEp") /\
  (JS.RBRACK ∉ [13]) /\
  kindOfLabel (lit "* [[KeEp]]" ++ [13]) = Some (lit "keep").
Proof.
  assert (JS.LBRACK ∉ lit "* ") as Hpre.
  { intros Hin. vm_compute in Hin.
    repeat (apply elem_of_cons in Hin as [Hin|Hin]; [discriminate|]).
    by apply elem_of_nil in Hin. }
  assert (lit "KeEp" <> []) as Hne by discriminate.
  assert (Forall (fun c => JS.isDot c = true) (lit "KeEp")) as Hdots.
  { repeat constructor. }
  assert (Forall (fun c => c < 128) (lit "KeEp")) as Hascii.
  { repeat constructor. }
  assert (JS.RBRACK ∉ [13]) as Hpost.
  { intros Hin. apply elem_of_cons in Hin as [Hin|Hin]; [discriminate|].
    by apply elem_of_nil in Hin. }
  split; [exact Hpre|]. split; [exact Hne|]. split; [exact Hdots|].
  split; [exact Hascii|]. split; [exact Hpost|].
  exact (kindOfLabel_bracketed (lit "* ") (lit "KeEp") [13]
           Hpre Hne Hdots Hascii Hpost).
Defined.




Lemma split_no_blank (s : jsstring) :
  hasBlankLine s = false -> JS.split s [LF; LF] = [s].
Proof.
  unfold JS.split. induction s as [|c s IH]; [done|].
  cbn [hasBlankLine]. intros Hblank.
  apply orb_false_iff in Hblank as [Hhere Hrest].
  cbn [JS.split_from]. by rewrite Hhere, (IH Hrest).
Qed.






(** X9: the first chunk is the title and is never read as a section: a
    text without an empty line gives four empty fields, also when it
    starts with a recognised label. *)
Theorem parseAsKPTContents_title_only (contents : jsstring) :
  hasBlankLine contents = false ->
  parseAsKPTContents contents = Ok emptyKPTContents.
Proof.
  intros Hblank. unfold parseAsKPTContents.
  by rewrite (split_no_blank _ Hblank).
Qed.

Lemma parseAsKPTContents_title_only_witness :
  hasBlankLine (lit "[[Keep]]" ++ [LF] ++ lit "pairing") = false /\
  parseAsKPTContents (lit "[[Keep]]" ++ [LF] ++ lit "pairing") =
  Ok emptyKPTContents.
Proof.
  split; [reflexivity|].
  exact (parseAsKPTContents_title_only
           (lit "[[Keep]]" ++ [LF] ++ lit "pairing") eq_refl).
Defined.

(** ** Host iterators *)

Section Iterators.

Context {A C : Type} (iter : GIterLike A C) (remaining : C -> list A).

Hypothesis hasNext_remaining :
  forall cursor, hasNext iter cursor = true <-> remaining cursor <> [].

Hypothesis next_remaining :
  forall cursor item rest,
    remaining cursor = item :: rest ->
    exists cursor', next iter cursor = Some (item, cursor') /\
                    remaining cursor' = rest.

Lemma spread_iterify_remaining (fuel : nat) (cursor : C) :
  (length (remaining cursor) < fuel)%nat ->
  spread_iterify iter fuel cursor = Some (Ok (remaining cursor)).
Proof.
  revert cursor. induction fuel as [|fuel IH]; intros cursor Hfuel; [lia|].
  cbn [spread_iterify].
  destruct (remaining cursor) as [|item rest] eqn:Hrest.
  - destruct (hasNext iter cursor) eqn:Hnext; [|done].
    apply hasNext_remaining in Hnext. by rewrite Hrest in Hnext.
  - assert (hasNext iter cursor = true) as ->.
    { apply hasNext_remaining. by rewrite Hrest. }
    destruct (next_remaining _ _ _ Hrest) as (cursor' & -> & Hrest').
    rewrite IH by (rewrite Hrest'; simpl in Hfuel; lia).
    by rewrite Hrest'.
Qed.

End Iterators.

(** X10: spreading [iterify] over an iterator of the host collects,
    in order, everything the iterator still had to give, and never calls
    [next] on an exhausted iterator; the loop ends after one turn more
    than there are items. *)
Theorem spread_iterify_all {A C : Type} (iter : GIterLike A C)
    (remaining : C -> list A) (cursor : C) :
  (forall c, hasNext iter c = true <-> remaining c <> []) ->
  (forall c item rest,
     remaining c = item :: rest ->
     exists c', next iter c = Some (item, c') /\ remaining c' = rest) ->
  spread_iterify iter (S (length (remaining cursor))) cursor =
  Some (Ok (remaining cursor)).
Proof.
  intros Hhas Hnext.
  apply (spread_iterify_remaining iter remaining Hhas Hnext). lia.
Qed.

Lemma listingIterator_hasNext {A : Type} (cursor : list A) :
  hasNext (listingIterator A) cursor = true <-> cursor <> [].
Proof. by destruct cursor. Qed.

Lemma listingIterator_next {A : Type} (cursor : list A) (item : A)
    (rest : list A) :
  cursor = item :: rest ->
  exists cursor', next (listingIterator A) cursor = Some (item, cursor') /\
                  cursor' = rest.
Proof. intros ->. by exists rest. Qed.

Lemma spread_iterify_all_witness :
  spread_iterify (listingIterator GFolder) 3 (folder_folders reportRoot) =
  Some (Ok (folder_folders reportRoot)).
Proof.
  exact (spread_iterify_all (listingIterator GFolder) (fun cursor => cursor)
           (folder_folders reportRoot)
           listingIterator_hasNext listingIterator_next).
Defined.

(** ** Storage locator, continued *)

Lemma filter_first_file (name : jsstring) (files before behind : list GFile)
    (file : GFile) :
  files = before ++ file :: behind ->
  Forall (fun other => file_name other <> name) before ->
  file_name file = name ->
  head (filter (fun file' => file_name file' = name) files) = Some file.
Proof.
  intros -> Hbefore Hfile.
  induction Hbefore as [|other before Hother _ IH]; cbn [app].
  - by rewrite filter_cons, decide_True.
  - by rewrite filter_cons, decide_False.
Qed.

Lemma filter_no_file (name : jsstring) (files : list GFile) :
  Forall (fun other => file_name other <> name) files <->
  filter (fun file' => file_name file' = name) files = [].
Proof.
  induction files as [|other files IH].
  - split; [done|constructor].
  - rewrite filter_cons, Forall_cons.
    destruct (decide (file_name other = name)) as [Heq|Hne].
    + split; [by intros [? _]|done].
    + rewrite <- IH. split; [by intros [_ ?]|done].
Qed.

(** X11: [findSpreadsheetByName] opens the first file, in listing order,
    whose name is exactly the name asked for; later files of the same
    name are not looked at. *)
Theorem findSpreadsheetByName_first (w : World) (name : jsstring)
    (folder : GFolder) (before behind : list GFile) (file : GFile) :
  folder_files folder = before ++ file :: behind ->
  Forall (fun other => file_name other <> name) before ->
  file_name file = name ->
  findSpreadsheetByName w name folder =
  match openById w (file_id file) with
  | Some sheet => Ok sheet
  | None => Throw (HostError (lit "SpreadsheetApp.openById"))
  end.
Proof.
  intros Hfiles Hbefore Hfile. unfold findSpreadsheetByName, getFilesByName.
  by rewrite (filter_first_file _ _ _ _ _ Hfiles Hbefore Hfile).
Qed.

Lemma findSpreadsheetByName_first_witness :
  findSpreadsheetByName reportWorld (GEPPO ++ lit "202405") twoReportsFolder =
  Ok sampleSheet.
Proof.
  apply (findSpreadsheetByName_first reportWorld (GEPPO ++ lit "202405")
           twoReportsFolder [MkFile (lit "notes") (lit "memo")]
           [MkFile (lit "sheet-2") (GEPPO ++ lit "202405")]
           (MkFile (lit "sheet-1") (GEPPO ++ lit "202405"))).
  - reflexivity.
  - constructor; [|constructor]. cbn. discriminate.
  - reflexivity.
Defined.

(** X12: [findSpreadsheetByName] throws the error whose payload holds
    the name and the folder exactly when no file of the folder has that
    name. *)
Theorem findSpreadsheetByName_missing (w : World) (name : jsstring)
    (folder : GFolder) :
  Forall (fun other => file_name other <> name) (folder_files folder) <->
  findSpreadsheetByName w name folder =
  Throw (ErrorJSON (FileInfo false name folder)).
Proof.
  unfold findSpreadsheetByName, getFilesByName. rewrite filter_no_file.
  destruct (filter _ (folder_files folder)) as [|file files]; [done|].
  cbn [head]. split; [done|].
  by destruct (openById w (file_id file)).
Qed.

Lemma findSpreadsheetByName_missing_witness :
  Forall (fun other => file_name other <> GEPPO ++ lit "202406")
    (folder_files twoReportsFolder) /\
  findSpreadsheetByName reportWorld (GEPPO ++ lit "202406") twoReportsFolder =
  Throw (ErrorJSON (FileInfo false (GEPPO ++ lit "202406") twoReportsFolder)).
Proof.
  assert (Forall (fun other => file_name other <> GEPPO ++ lit "202406")
            (folder_files twoReportsFolder)) as Hnone.
  { repeat constructor; cbn; discriminate. }
  split; [exact Hnone|].
  exact (proj1 (findSpreadsheetByName_missing reportWorld
                  (GEPPO ++ lit "202406") twoReportsFolder) Hnone).
Defined.

(** ** Report writer *)

Lemma sheet_eta (sheet : Spreadsheet) :
  {| getId := getId sheet; getName := getName sheet; getUrl := getUrl sheet |}
  = sheet.
Proof. by destruct sheet. Qed.

Lemma overwriteKPTContents_run (w : World) (kptContents : KPTContents)
    (sheet : Spreadsheet) (st : Store) :
  overwriteKPTContents w kptContents sheet st =
  (if decide (writablePrefix w (getId sheet) reportCells = 4%nat)
   then Ok (updateResult kptContents sheet)
   else Throw (HostError (lit "Range.setValue")),
   {| cells := applyWrites (cells st)
                 (take (writablePrefix w (getId sheet) reportCells)
                    (fourWrites kptContents sheet));
      trace := trace st ++
               take (writablePrefix w (getId sheet) reportCells)
                 (fourWrites kptContents sheet) |}).
Proof.
  unfold overwriteKPTContents, updateResult, reportCells, fourWrites. run_M.
  rewrite sheet_eta. cbn [writablePrefix].
  destruct st as [cells0 trace0].
  repeat (destruct (protected w (getId sheet) _);
          [cbn; by rewrite ?app_nil_r, <- ?app_assoc|]).
  cbn. by rewrite <- !app_assoc.
Qed.

Lemma writablePrefix_all (w : World) (spreadsheetId : jsstring)
    (addresses : list jsstring) :
  Forall (fun a1Notation => protected w spreadsheetId a1Notation = false)
    addresses <->
  writablePrefix w spreadsheetId addresses = length addresses.
Proof.
  induction addresses as [|a1Notation rest IH]; cbn [writablePrefix length].
  - split; [done|constructor].
  - rewrite Forall_cons, IH.
    destruct (protected w spreadsheetId a1Notation); split; try done.
    + by intros [? _].
    + intros [_ ->]. done.
    + intros [= ->]. done.
Qed.

Lemma writablePrefix_le (w : World) (spreadsheetId : jsstring)
    (addresses : list jsstring) :
  (writablePrefix w spreadsheetId addresses <= length addresses)%nat.
Proof.
  induction addresses as [|a1Notation rest IH]; cbn [writablePrefix length];
    [done|].
  destruct (protected w spreadsheetId a1Notation); lia.
Qed.

(** X13: when the four ranges accept a write, [overwriteKPTContents]
    returns the record of success with the contents and the spreadsheet
    it was given; afterwards B8 holds the field keep, B12 the field
    problem, B16 the field try and B20 the field other, whatever they held
    before, and every other cell is as it was. *)
Theorem overwriteKPTContents_cells (w : World) (kptContents : KPTContents)
    (sheet : Spreadsheet) (st : Store) :
  Forall (fun a1Notation => protected w (getId sheet) a1Notation = false)
    reportCells ->
  (overwriteKPTContents w kptContents sheet st).1 =
  Ok (updateResult kptContents sheet) /\
  cells (overwriteKPTContents w kptContents sheet st).2
    !! (getId sheet, lit "B8") = Some (kptContents !! lit "keep") /\
  cells (overwriteKPTContents w kptContents sheet st).2
    !! (getId sheet, lit "B12") = Some (kptContents !! lit "problem") /\
  cells (overwriteKPTContents w kptContents sheet st).2
    !! (getId sheet, lit "B16") = Some (kptContents !! lit "try") /\
  cells (overwriteKPTContents w kptContents sheet st).2
    !! (getId sheet, lit "B20") = Some (kptContents !! lit "other") /\
  forall spreadsheetId a1Notation,
    spreadsheetId <> getId sheet \/ a1Notation ∉ reportCells ->
    cells (overwriteKPTContents w kptContents sheet st).2
      !! (spreadsheetId, a1Notation) =
    cells st !! (spreadsheetId, a1Notation).
Proof.
  intros Hfree. apply writablePrefix_all in Hfree.
  rewrite overwriteKPTContents_run, Hfree. cbn.
  assert (forall a b : jsstring, a <> b -> (getId sheet, a) <> (getId sheet, b))
    as Hpair by (intros a b Hab [= ?]; done).
  split; [done|]. repeat split.
  - rewrite !lookup_insert_ne by (by apply Hpair). apply lookup_insert_eq.
  - rewrite !lookup_insert_ne by (by apply Hpair). apply lookup_insert_eq.
  - rewrite !lookup_insert_ne by (by apply Hpair). apply lookup_insert_eq.
  - apply lookup_insert_eq.
  - intros spreadsheetId a1Notation Hother.
    rewrite !lookup_insert_ne; [done|..];
      intros [= Hid Ha1]; destruct Hother as [Hother|Hother];
      try (by apply Hother); apply Hother; rewrite <- Ha1;
      unfold reportCells; set_solver.
Qed.

Lemma overwriteKPTContents_cells_witness :
  Forall (fun a1Notation =>
            protected reportWorld (getId sampleSheet) a1Notation = false)
    reportCells /\
  cells (overwriteKPTContents reportWorld
           {[ lit "keep" := lit "pairing" ]} sampleSheet
           {| cells := {[ (lit "sheet-1", lit "B8") := Some (lit "old");
                          (lit "sheet-1", lit "A1") := Some (lit "title") ]};
              trace := [] |}).2 !! (lit "sheet-1", lit "B8") =
  Some (Some (lit "pairing")).
Proof.
  assert (Forall (fun a1Notation =>
                    protected reportWorld (getId sampleSheet) a1Notation
                    = false) reportCells) as Hfree.
  { repeat constructor. }
  split; [exact Hfree|].
  exact (proj1 (proj2 (overwriteKPTContents_cells reportWorld
                         {[ lit "keep" := lit "pairing" ]} sampleSheet _
                         Hfree))).
Defined.

(** X14: the four writes are made in the order B8, B12, B16, B20 and
    stop at the first range that refuses: the call then throws, the
    writes made before stay in place and the later ranges are not
    written.  The call returns exactly when none of the four refuses. *)
Theorem overwriteKPTContents_refusal (w : World) (kptContents : KPTContents)
    (sheet : Spreadsheet) (st : Store) :
  (writablePrefix w (getId sheet) reportCells <= 4)%nat /\
  trace (overwriteKPTContents w kptContents sheet st).2 =
  trace st ++ take (writablePrefix w (getId sheet) reportCells)
                (fourWrites kptContents sheet) /\
  cells (overwriteKPTContents w kptContents sheet st).2 =
  applyWrites (cells st)
    (take (writablePrefix w (getId sheet) reportCells)
       (fourWrites kptContents sheet)) /\
  ((exists result, (overwriteKPTContents w kptContents sheet st).1 = Ok result)
   <-> Forall (fun a1Notation => protected w (getId sheet) a1Notation = false)
         reportCells) /\
  ((writablePrefix w (getId sheet) reportCells < 4)%nat ->
   (overwriteKPTContents w kptContents sheet st).1 =
   Throw (HostError (lit "Range.setValue"))).
Proof.
  rewrite overwriteKPTContents_run, writablePrefix_all.
  cbn [fst snd cells trace].
  split; [apply (writablePrefix_le w (getId sheet) reportCells)|].
  split; [done|]. split; [done|].
  change (length reportCells) with 4%nat.
  destruct (decide (writablePrefix w (getId sheet) reportCells = 4%nat))
    as [Hall|Hsome].
  - split; [split; [done|eauto]|]. lia.
  - split; [split; [by intros [? ?]|done]|done].
Qed.

Lemma overwriteKPTContents_refusal_witness :
  (writablePrefix protectedWorld (getId sampleSheet) reportCells < 4)%nat /\
  overwriteKPTContents protectedWorld
    {[ lit "keep" := lit "pairing"; lit "problem" := lit "slow" ]}
    sampleSheet emptyStore =
  (Throw (HostError (lit "Range.setValue")),
   {| cells := {[ (lit "sheet-1", lit "B8") := Some (lit "pairing");
                  (lit "sheet-1", lit "B12") := Some (lit "slow") ]};
      trace := [SetValue (lit "sheet-1") (lit "B8") (Some (lit "pairing"));
                SetValue (lit "sheet-1") (lit "B12") (Some (lit "slow"))] |}).
Proof.
  assert (writablePrefix protectedWorld (getId sampleSheet) reportCells < 4)%nat
    as Hrefused by (vm_compute; lia).
  split; [exact Hrefused|].
  destruct (overwriteKPTContents_refusal protectedWorld
              {[ lit "keep" := lit "pairing"; lit "problem" := lit "slow" ]}
              sampleSheet emptyStore) as (_ & Htrace & Hcells & _ & Hthrow).
  specialize (Hthrow Hrefused).
  destruct (overwriteKPTContents _ _ _ _) as [result [cells' trace']].
  cbn in Htrace, Hcells, Hthrow. subst result cells' trace'.
  by vm_compute.
Defined.

(** ** Storage locator, end to end *)

Lemma fold_descends (names : list jsstring) (folder found : GFolder) :
  fold_left findChild names (Some folder) = Some found ->
  Descends folder names found.
Proof.
  intros Hfold.
  destruct (descends_or_misses names folder) as [[found' Hfound]|Hmiss].
  - rewrite (descends_fold _ _ _ Hfound) in Hfold. by injection Hfold as <-.
  - by rewrite (misses_fold _ _ Hmiss) in Hfold.
Qed.

Lemma findFolderByPathnames_Ok (w : World) (pathnames : list jsstring)
    (rootFolderId : jsstring) (found : GFolder) :
  findFolderByPathnames w pathnames rootFolderId = Ok found <->
  exists rootFolder,
    getFolderById w rootFolderId = Some rootFolder /\
    Descends rootFolder pathnames found.
Proof.
  unfold findFolderByPathnames. split.
  - destruct (getFolderById w rootFolderId) as [rootFolder|]; [|done].
    destruct (fold_left _ _ _) as [found'|] eqn:Hfold; [|done].
    intros [= <-]. exists rootFolder. split; [done|by apply fold_descends].
  - intros (rootFolder & -> & Hfound). by rewrite (descends_fold _ _ _ Hfound).
Qed.

Lemma head_filter_file (name : jsstring) (files : list GFile) (file : GFile) :
  head (filter (fun file' => file_name file' = name) files) = Some file ->
  exists before behind,
    files = before ++ file :: behind /\
    Forall (fun other => file_name other <> name) before /\
    file_name file = name.
Proof.
  induction files as [|other files IH]; [done|].
  rewrite filter_cons.
  destruct (decide (file_name other = name)) as [Heq|Hne].
  - intros [= <-]. by exists [], files.
  - intros Hhead. destruct (IH Hhead) as (before & behind & -> & Hbefore & Hfile).
    exists (other :: before), behind. by repeat constructor.
Qed.

Lemma findSpreadsheetByName_Ok (w : World) (name : jsstring)
    (folder : GFolder) (sheet : Spreadsheet) :
  findSpreadsheetByName w name folder = Ok sheet <->
  exists before file behind,
    folder_files folder = before ++ file :: behind /\
    Forall (fun other => file_name other <> name) before /\
    file_name file = name /\
    openById w (file_id file) = Some sheet.
Proof.
  unfold findSpreadsheetByName, getFilesByName. split.
  - destruct (head _) as [file|] eqn:Hhead; [|done].
    destruct (openById w (file_id file)) as [sheet'|] eqn:Hopen; [|done].
    intros [= <-].
    destruct (head_filter_file _ _ _ Hhead)
      as (before & behind & Hfiles & Hbefore & Hfile).
    by exists before, file, behind.
  - intros (before & file & behind & Hfiles & Hbefore & Hfile & Hopen).
    by rewrite (filter_first_file _ _ _ _ _ Hfiles Hbefore Hfile), Hopen.
Qed.

Lemma reportPathnames_key (tod : Date) :
  (1000 <= getFullYear tod <= 9999)%Z -> (0 <= getMonth tod <= 11)%Z ->
  reportPathnames tod =
  [GETSUJI_SHIRYO; fourDigits (getFullYear tod); twoDigits (getMonth tod)] /\
  monthlyReportName tod = GEPPO ++ monthKey tod.
Proof.
  intros Hy Hm. unfold reportPathnames, monthlyReportName, monthKey.
  by rewrite toString_fourDigits, padStart_twoDigits.
Qed.

(** X15: for a date of a four-digit year, [getMonthlyReportSpreadsheet]
    returns a spreadsheet exactly when the root folder is known, the path
    of the top folder, the year and the two digits of the month index
    leads to a folder, that folder has a file named after the month, and
    the first such file opens as that spreadsheet; the store is left as
    it was in every case. *)
Theorem getMonthlyReportSpreadsheet_found (w : World) (env : Env)
    (tod : Date) (st : Store) (sheet : Spreadsheet) :
  (1000 <= getFullYear tod <= 9999)%Z -> (0 <= getMonth tod <= 11)%Z ->
  (getMonthlyReportSpreadsheet w env tod st).2 = st /\
  ((getMonthlyReportSpreadsheet w env tod st).1 = Ok sheet <->
   exists rootFolder folder before file behind,
     getFolderById w (GDRIVE_ROOT_FOLDER_ID env) = Some rootFolder /\
     Descends rootFolder
       [GETSUJI_SHIRYO; fourDigits (getFullYear tod);
        twoDigits (getMonth tod)] folder /\
     folder_files folder = before ++ file :: behind /\
     Forall (fun other => file_name other <> GEPPO ++ monthKey tod) before /\
     file_name file = GEPPO ++ monthKey tod /\
     openById w (file_id file) = Some sheet).
Proof.
  intros Hy Hm. rewrite getMonthlyReportSpreadsheet_run.
  destruct (reportPathnames_key tod Hy Hm) as [Hpath Hname].
  cbn [fst snd]. split; [done|]. unfold sheetOutcome.
  rewrite Hpath, Hname. split.
  - destruct (findFolderByPathnames _ _ _) as [folder|] eqn:Hfolder; [|done].
    cbn [mbind Result_bind]. intros Hsheet.
    apply findFolderByPathnames_Ok in Hfolder as (rootFolder & Hroot & Hfound).
    apply findSpreadsheetByName_Ok in Hsheet
      as (before & file & behind & Hfiles & Hbefore & Hfile & Hopen).
    by exists rootFolder, folder, before, file, behind.
  - intros (rootFolder & folder & before & file & behind & Hroot & Hfound &
            Hfiles & Hbefore & Hfile & Hopen).
    assert (findFolderByPathnames w
              [GETSUJI_SHIRYO; fourDigits (getFullYear tod);
               twoDigits (getMonth tod)] (GDRIVE_ROOT_FOLDER_ID env)
            = Ok folder) as ->.
    { apply findFolderByPathnames_Ok. by exists rootFolder. }
    cbn [mbind Result_bind]. apply findSpreadsheetByName_Ok.
    by exists before, file, behind.
Qed.

Lemma getMonthlyReportSpreadsheet_found_witness :
  (1000 <= getFullYear sampleDate <= 9999)%Z /\
  (0 <= getMonth sampleDate <= 11)%Z /\
  (getMonthlyReportSpreadsheet reportWorld sampleEnv sampleDate emptyStore).1 =
  Ok sampleSheet.
Proof.
  assert (1000 <= getFullYear sampleDate <= 9999)%Z as Hy by (cbn; lia).
  assert (0 <= getMonth sampleDate <= 11)%Z as Hm by (cbn; lia).
  split; [exact Hy|]. split; [exact Hm|].
  apply (getMonthlyReportSpreadsheet_found reportWorld sampleEnv sampleDate
           emptyStore sampleSheet Hy Hm).
  exists reportRoot,
    (MkFolder (lit "05") []
       [MkFile (lit "notes") (lit "memo");
        MkFile (lit "sheet-1") (GEPPO ++ lit "202405")]),
    [MkFile (lit "notes") (lit "memo")],
    (MkFile (lit "sheet-1") (GEPPO ++ lit "202405")), [].
  split; [reflexivity|]. split.
  - apply (descends_step _
             (MkFolder GETSUJI_SHIRYO
                [MkFolder (lit "2024")
                   [MkFolder (lit "04") [] [];
                    MkFolder (lit "05") []
                      [MkFile (lit "notes") (lit "memo");
                       MkFile (lit "sheet-1") (GEPPO ++ lit "202405")]]
                   []] [])).
    { apply (first_child _ _ _ [MkFolder (lit "archive") [] []] []);
        [reflexivity| |reflexivity].
      constructor; [|constructor]. cbn. discriminate. }
    apply (descends_step _
             (MkFolder (lit "2024")
                [MkFolder (lit "04") [] [];
                 MkFolder (lit "05") []
                   [MkFile (lit "notes") (lit "memo");
                    MkFile (lit "sheet-1") (GEPPO ++ lit "202405")]]
                [])).
    { apply (first_child _ _ _ [] []); [reflexivity| |reflexivity].
      constructor. }
    apply (descends_step _
             (MkFolder (lit "05") []
                [MkFile (lit "notes") (lit "memo");
                 MkFile (lit "sheet-1") (GEPPO ++ lit "202405")])).
    { apply (first_child _ _ _ [MkFolder (lit "04") [] []] []);
        [reflexivity| |reflexivity].
      constructor; [|constructor]. cbn. discriminate. }
    apply descends_done.
  - split; [reflexivity|]. split.
    { constructor; [|constructor]. cbn. discriminate. }
    split; reflexivity.
Defined.

(** ** Orchestrator, continued *)

Lemma overwrite_log_run (w : World) (kptContents : KPTContents)
    (sheet : Spreadsheet) (st : Store) :
  (updatedResult ← overwriteKPTContents w kptContents sheet;
   console_log updatedResult) st =
  (if decide (writablePrefix w (getId sheet) reportCells = 4%nat)
   then Ok tt else Throw (HostError (lit "Range.setValue")),
   {| cells := applyWrites (cells st)
                 (take (writablePrefix w (getId sheet) reportCells)
                    (fourWrites kptContents sheet));
      trace := trace st ++
               take (writablePrefix w (getId sheet) reportCells)
                 (fourWrites kptContents sheet) ++
               (if decide (writablePrefix w (getId sheet) reportCells = 4%nat)
                then [Logged (updateResult kptContents sheet)] else []) |}).
Proof.
  unfold mbind, M_bind. rewrite overwriteKPTContents_run.
  destruct (decide _) as [Hall|Hsome].
  - unfold console_log, emit. cbn [cells trace]. by rewrite <- app_assoc.
  - by rewrite app_nil_r.
Qed.

Lemma fetchOutcome_Ok (w : World) (env : Env) (url : jsstring)
    (kptContents : KPTContents) :
  fetchOutcome w env url = Ok kptContents <->
  exists response,
    fetch w url (cookieHeaders env) = Some response /\
    getResponseCode response = 200%Z /\
    parseAsKPTContents (getContentText response) = Ok kptContents.
Proof.
  unfold fetchOutcome. split.
  - destruct (fetch w url _) as [response|]; [|done].
    case_bool_decide as Hcode; [done|]. intros Hparse.
    exists response. split; [done|]. split; [|done].
    by destruct (decide (getResponseCode response = 200%Z)).
  - intros (response & -> & Hcode & Hparse).
    by rewrite bool_decide_eq_false_2 by (by intros ?).
Qed.

Lemma pageUrl_Ok (env : Env) (tod : Date) :
  exists url, pageUrl env tod = Ok url.
Proof. apply joinPaths_cons. Qed.







(** X16: a run completes exactly when the page is fetched with status
    200, the spreadsheet of the month is found and none of the four
    ranges refuses its write. *)
Theorem main_Ok_iff (w : World) (env : Env) (today : Date) (st : Store) :
  (main w env today st).1 = Ok tt <->
  exists url response sheet,
    pageUrl env today = Ok url /\
    fetch w url (cookieHeaders env) = Some response /\
    getResponseCode response = 200%Z /\
    (getMonthlyReportSpreadsheet w env today st).1 = Ok sheet /\
    Forall (fun a1Notation => protected w (getId sheet) a1Notation = false)
      reportCells.
Proof.
  rewrite getMonthlyReportSpreadsheet_run. cbn [fst].
  destruct (pageUrl_Ok env today) as [url Hurl].
  rewrite (main_run _ _ _ _ _ Hurl). split.
  - unfold Promise_all.
    destruct (fetchOutcome w env url) as [kptContents|] eqn:Hfetch; [|done].
    destruct (sheetOutcome w env today) as [sheet|]; [|done].
    rewrite overwrite_log_run. cbn [fst].
    destruct (decide _) as [Hall|]; [|done]. intros _.
    apply fetchOutcome_Ok in Hfetch as (response & Hfetch & Hcode & _).
    exists url, response, sheet. repeat (split; [done|]).
    by apply writablePrefix_all.
  - intros (url' & response & sheet & Hurl' & Hfetch & Hcode & Hsheet & Hfree).
    assert (url' = url) as -> by congruence.
    destruct (parseAsKPTContents (getContentText response))
      as [kptContents|] eqn:Hparse.
    2: { unfold parseAsKPTContents in Hparse.
         destruct (parse_fold
                     (tail (JS.split (getContentText response) [LF; LF]))
                     emptyKPTContents) as (kpt' & Hkpt' & _).
         congruence. }
    assert (fetchOutcome w env url = Ok kptContents) as ->.
    { apply fetchOutcome_Ok. by exists response. }
    rewrite Hsheet. cbn [Promise_all]. rewrite overwrite_log_run. cbn [fst].
    apply writablePrefix_all in Hfree.
    by rewrite decide_True.
Qed.

Lemma main_Ok_iff_witness :
  (exists url response sheet,
     pageUrl sampleEnv sampleDate = Ok url /\
     fetch reportWorld url (cookieHeaders sampleEnv) = Some response /\
     getResponseCode response = 200%Z /\
     (getMonthlyReportSpreadsheet reportWorld sampleEnv sampleDate
        emptyStore).1 = Ok sheet /\
     Forall (fun a1Notation =>
               protected reportWorld (getId sheet) a1Notation = false)
       reportCells) /\
  (main reportWorld sampleEnv sampleDate emptyStore).1 = Ok tt.
Proof.
  assert (exists url response sheet,
            pageUrl sampleEnv sampleDate = Ok url /\
            fetch reportWorld url (cookieHeaders sampleEnv) = Some response /\
            getResponseCode response = 200%Z /\
            (getMonthlyReportSpreadsheet reportWorld sampleEnv sampleDate
               emptyStore).1 = Ok sheet /\
            Forall (fun a1Notation =>
                      protected reportWorld (getId sheet) a1Notation = false)
              reportCells) as Hall.
  { exists sampleUrl, (MkResponse 200 [] scenarioText), sampleSheet.
    split; [by vm_compute|]. split; [reflexivity|]. split; [reflexivity|].
    split; [by vm_compute|]. repeat constructor. }
  split; [exact Hall|].
  exact (proj2 (main_Ok_iff reportWorld sampleEnv sampleDate emptyStore) Hall).
Defined.

(** X17: a run that completes has sent the request, then made the four
    writes, then logged once the record of success with the parsed
    contents and the spreadsheet, and nothing else. *)
Theorem main_final_store (w : World) (env : Env) (today : Date)
    (st : Store) :
  (main w env today st).1 = Ok tt ->
  exists url response kptContents sheet,
    pageUrl env today = Ok url /\
    fetch w url (cookieHeaders env) = Some response /\
    parseAsKPTContents (getContentText response) = Ok kptContents /\
    (getMonthlyReportSpreadsheet w env today st).1 = Ok sheet /\
    (main w env today st).2 =
    {| cells := fourCells kptContents sheet (cells st);
       trace := trace st ++
                [Fetched url (cookieHeaders env)] ++
                fourWrites kptContents sheet ++
                [Logged (updateResult kptContents sheet)] |}.
Proof.
  rewrite getMonthlyReportSpreadsheet_run. cbn [fst].
  destruct (pageUrl_Ok env today) as [url Hurl].
  rewrite (main_run _ _ _ _ _ Hurl). unfold Promise_all.
  destruct (fetchOutcome w env url) as [kptContents|] eqn:Hfetch; [|done].
  destruct (sheetOutcome w env today) as [sheet|]; [|done].
  rewrite overwrite_log_run. cbn [fst snd].
  destruct (decide _) as [Hall|]; [|done]. intros _.
  apply fetchOutcome_Ok in Hfetch as (response & Hfetch & _ & Hparse).
  exists url, response, kptContents, sheet. repeat (split; [done|]).
  rewrite Hall. unfold after. cbn [cells trace].
  by rewrite <- app_assoc.
Qed.

Lemma main_final_store_witness :
  (main reportWorld sampleEnv sampleDate emptyStore).1 = Ok tt /\
  exists kptContents,
    trace (main reportWorld sampleEnv sampleDate emptyStore).2 =
    [Fetched sampleUrl (cookieHeaders sampleEnv)] ++
    fourWrites kptContents sampleSheet ++
    [Logged (updateResult kptContents sampleSheet)].
Proof.
  assert ((main reportWorld sampleEnv sampleDate emptyStore).1 = Ok tt)
    as Hdone by (by vm_compute).
  split; [exact Hdone|].
  destruct (main_final_store reportWorld sampleEnv sampleDate emptyStore Hdone)
    as (url & response & kptContents & sheet & Hurl & _ & _ & Hsheet & Hstore).
  vm_compute in Hurl. injection Hurl as <-.
  vm_compute in Hsheet. injection Hsheet as <-.
  exists kptContents. rewrite Hstore. reflexivity.
Defined.

(** X18: a rejected page fetch decides the error of the run, whatever
    the storage lookup gives; when the page is fetched and parsed, a
    failure of the storage lookup is the error of the run.  In both
    cases the request is all that has happened. *)
Theorem main_rejection (w : World) (env : Env) (today : Date) (st : Store)
    (url : jsstring) :
  pageUrl env today = Ok url ->
  (forall e,
     (getKPTContents w env today st).1 = Throw e ->
     main w env today st =
     (Throw e, after st [Fetched url (cookieHeaders env)])) /\
  (forall kptContents e,
     (getKPTContents w env today st).1 = Ok kptContents ->
     (getMonthlyReportSpreadsheet w env today st).1 = Throw e ->
     main w env today st =
     (Throw e, after st [Fetched url (cookieHeaders env)])).
Proof.
  intros Hurl.
  rewrite (main_run _ _ _ _ _ Hurl), (getKPTContents_run _ _ _ _ _ Hurl),
    getMonthlyReportSpreadsheet_run.
  cbn [fst]. split.
  - by intros e ->.
  - by intros kptContents e -> ->.
Qed.

Lemma main_rejection_witness :
  pageUrl sampleEnv sampleDate = Ok sampleUrl /\
  (getKPTContents notFoundWorld sampleEnv sampleDate emptyStore).1 =
  Throw (ErrorJSON (FetchInfo [] (lit "Not Found") 404)) /\
  (exists e,
     (getMonthlyReportSpreadsheet notFoundWorld sampleEnv sampleDate
        emptyStore).1 = Throw e) /\
  main notFoundWorld sampleEnv sampleDate emptyStore =
  (Throw (ErrorJSON (FetchInfo [] (lit "Not Found") 404)),
   after emptyStore [Fetched sampleUrl (cookieHeaders sampleEnv)]).
Proof.
  assert (pageUrl sampleEnv sampleDate = Ok sampleUrl) as Hurl
    by (by vm_compute).
  assert ((getKPTContents notFoundWorld sampleEnv sampleDate emptyStore).1 =
          Throw (ErrorJSON (FetchInfo [] (lit "Not Found") 404))) as Hfetch
    by (by vm_compute).
  split; [exact Hurl|]. split; [exact Hfetch|].
  split; [eexists; by vm_compute|].
  exact (proj1 (main_rejection notFoundWorld sampleEnv sampleDate emptyStore
                  sampleUrl Hurl) _ Hfetch).
Defined.

(** X19: every run sends exactly one request, before anything else, and
    logs a record exactly when it completes. *)
Theorem main_one_request (w : World) (env : Env) (today : Date)
    (st : Store) :
  exists url events,
    pageUrl env today = Ok url /\
    trace (main w env today st).2 =
    trace st ++ Fetched url (cookieHeaders env) :: events /\
    (forall url' headers, Fetched url' headers ∉ events) /\
    ((exists result, Logged result ∈ events) <->
     (main w env today st).1 = Ok tt).
Proof.
  destruct (pageUrl_Ok env today) as [url Hurl]. exists url.
  rewrite (main_run _ _ _ _ _ Hurl).
  destruct (Promise_all _ _) as [[kptContents sheet]|e].
  - rewrite overwrite_log_run. cbn [fst snd trace after].
    eexists. split; [done|]. split.
    { rewrite <- app_assoc. cbn [app]. reflexivity. }
    assert (forall n url' headers,
              Fetched url' headers ∉ take n (fourWrites kptContents sheet))
      as Hwrites.
    { intros n url' headers Hin. apply elem_of_take in Hin as (i & Hin & _).
      apply list_elem_of_lookup_2 in Hin. unfold fourWrites in Hin.
      repeat (apply elem_of_cons in Hin as [Hin|Hin]; [discriminate|]).
      by apply elem_of_nil in Hin. }
    assert (forall n result,
              Logged result ∉ take n (fourWrites kptContents sheet))
      as Hnolog.
    { intros n result Hin. apply elem_of_take in Hin as (i & Hin & _).
      apply list_elem_of_lookup_2 in Hin. unfold fourWrites in Hin.
      repeat (apply elem_of_cons in Hin as [Hin|Hin]; [discriminate|]).
      by apply elem_of_nil in Hin. }
    destruct (decide _) as [Hall|Hsome].
    + split.
      * intros url' headers Hin. apply elem_of_app in Hin as [Hin|Hin].
        -- by apply Hwrites in Hin.
        -- apply list_elem_of_singleton in Hin. discriminate.
      * split; [done|]. intros _. exists (updateResult kptContents sheet).
        apply elem_of_app. right. by apply list_elem_of_singleton.
    + rewrite app_nil_r. split; [apply Hwrites|].
      split; [|done]. intros [result Hin]. by apply Hnolog in Hin.
  - cbn [fst snd trace after]. exists []. split; [done|]. split; [done|].
    split; [by intros ? ? ?%elem_of_nil|].
    split; [by intros [? ?%elem_of_nil]|done].
Qed.

Lemma main_one_request_witness :
  (main reportWorld sampleEnv sampleDate emptyStore).1 = Ok tt /\
  exists url events,
    trace (main reportWorld sampleEnv sampleDate emptyStore).2 =
    Fetched url (cookieHeaders sampleEnv) :: events /\
    exists result, Logged result ∈ events.
Proof.
  assert ((main reportWorld sampleEnv sampleDate emptyStore).1 = Ok tt)
    as Hdone by (by vm_compute).
  split; [exact Hdone|].
  destruct (main_one_request reportWorld sampleEnv sampleDate emptyStore)
    as (url & events & _ & Htrace & _ & Hlogged).
  exists url, events. split; [exact Htrace|]. apply Hlogged, Hdone.
Defined.

(** ** Page fetcher, continued *)

Lemma pageTitle_clean (tod : Date) :
  (1000 <= getFullYear tod <= 9999)%Z -> (0 <= getMonth tod <= 11)%Z ->
  cleanSegment (pageTitle tod).
Proof.
  intros Hy Hm. rewrite (pageTitle_key _ Hy Hm).
  unfold cleanSegment, monthKey, twoDigits. split; [done|]. split; [done|].
  rewrite app_assoc, endsWith_app by done.
  change [digit (getMonth tod `div` 10); digit (getMonth tod `mod` 10)]
    with ([digit (getMonth tod `div` 10)] ++ [digit (getMonth tod `mod` 10)]).
  rewrite endsWith_app_snoc. apply bool_decide_eq_false_2.
  unfold digit, ZERO, SEPARATOR. lia.
Qed.

Lemma joinPaths_step (first second : jsstring) (rest : list jsstring) :
  joinPaths (first :: second :: rest) =
  joinPaths ((dropTrailingSeparator first ++ [SEPARATOR] ++
              dropLeadingSeparator second) :: rest).
Proof.
  unfold joinPaths. cbn [fold_left mbind Result_bind].
  by rewrite joinPath_junction.
Qed.

(** X20: for a date of a four-digit year and a project name without
    separator at its ends, the address asked for is the base URL, pages,
    the project name, the title of the month and text, one separator
    between two of them, whether the base URL is configured with a
    separator at its end or without. *)
Theorem pageUrl_base_separator (env : Env) (tod : Date) (base : jsstring) :
  (1000 <= getFullYear tod <= 9999)%Z -> (0 <= getMonth tod <= 11)%Z ->
  JS.endsWith base SEPARATOR = false ->
  cleanSegment (SCRAPBOX_PROJECT_NAME env) ->
  SCRAPBOX_BASE_URL env = base \/ SCRAPBOX_BASE_URL env = base ++ [SEPARATOR] ->
  pageUrl env tod =
  Ok (base ++ lit "/pages/" ++ SCRAPBOX_PROJECT_NAME env ++ [SEPARATOR] ++
      GEPPO ++ monthKey tod ++ lit "/text").
Proof.
  intros Hy Hm Hbase Hproject Hconfigured.
  assert (Forall cleanSegment
            [lit "pages"; SCRAPBOX_PROJECT_NAME env; pageTitle tod;
             lit "text"]) as Hclean.
  { repeat (apply Forall_cons; split); try done.
    by apply pageTitle_clean. }
  unfold pageUrl. destruct Hconfigured as [-> | ->].
  - unfold joinPaths. rewrite (joinPaths_fold_clean _ _ Hbase Hclean).
    rewrite (pageTitle_key _ Hy Hm). cbn [fmap list_fmap concat].
    by rewrite <- !app_assoc.
  - apply Forall_cons in Hclean as [_ Hclean].
    rewrite joinPaths_step, dropTrailingSeparator_sep.
    change (dropLeadingSeparator (lit "pages")) with (lit "pages").
    unfold joinPaths. rewrite joinPaths_fold_clean; [| |done].
    + rewrite (pageTitle_key _ Hy Hm). cbn [fmap list_fmap concat].
      by rewrite <- !app_assoc.
    + rewrite app_assoc. by rewrite endsWith_app.
Qed.

Lemma pageUrl_base_separator_witness :
  (1000 <= getFullYear sampleDate <= 9999)%Z /\
  (0 <= getMonth sampleDate <= 11)%Z /\
  JS.endsWith (lit "https://scrapbox.io/api") SEPARATOR = false /\
  cleanSegment (lit "team") /\
  pageUrl sampleEnv sampleDate = Ok sampleUrl /\
  pageUrl bareEnv sampleDate = Ok sampleUrl.
Proof.
  assert (1000 <= getFullYear sampleDate <= 9999)%Z as Hy by (cbn; lia).
  assert (0 <= getMonth sampleDate <= 11)%Z as Hm by (cbn; lia).
  assert (cleanSegment (lit "team")) as Hproject by (by repeat split).
  split; [exact Hy|]. split; [exact Hm|]. split; [reflexivity|].
  split; [exact Hproject|]. split.
  - exact (pageUrl_base_separator sampleEnv sampleDate
             (lit "https://scrapbox.io/api") Hy Hm eq_refl Hproject
             (or_intror eq_refl)).
  - exact (pageUrl_base_separator bareEnv sampleDate
             (lit "https://scrapbox.io/api") Hy Hm eq_refl Hproject
             (or_introl eq_refl)).
Defined.
